(** * Blackjack simulator: the rules engine of [src/App.jsx]

    A shallow embedding of the game logic of the React component
    [BlackjackGame] and of the module-level helpers it uses
    ([createDeck], [shuffleDeck], [calculateHandValue],
    [shouldAutoPlayHit]), followed by the properties of the hand
    evaluator, the dealer and auto-play policies, settlement and the
    round state machine.

    Conventions of the embedding.
    - JavaScript numbers that hold money, totals and card values are
      integers far below 2^53 and are modelled as [Z]; array lengths and
      the ace counter are [nat].
    - A JavaScript array is a [list] in array order: index 0 is the head,
      [push] appends at the end, [pop] removes the last element.
    - [Math.floor(Math.random() * (i + 1))] is an oracle [rnd : nat -> nat]
      read at [i]; the result is taken modulo [i + 1], the range the
      expression has in JavaScript.
    - A React state setter only queues an update; the queue is applied, in
      order, when the handler has returned.  A handler is therefore a
      function from the state it closed over to an [Update]
      ([GameState -> GameState]); [setX v] overwrites, [setXWith f] is the
      updater form [setX(prev => f prev)].
    - The state machine takes a click or the run of an effect as one
      atomic step on the current state.  [dealerPlay] is asynchronous only
      to pause between draws; it is modelled as one such step, and runs of
      it that overlap in time are not. *)

From stdpp Require Import prelude strings.

Local Open Scope Z_scope.

(** ** Cards and the deck *)

Inductive Suit : Type := hearts | diamonds | clubs | spades.

(** The thirteen rank strings ['2'] ... ['10'], ['J'], ['Q'], ['K'], ['A']. *)
Inductive Rank : Type :=
  | R2 | R3 | R4 | R5 | R6 | R7 | R8 | R9 | R10 | RJ | RQ | RK | RA.

#[global] Instance Suit_eq_dec : EqDecision Suit.
Proof. solve_decision. Defined.

#[global] Instance Rank_eq_dec : EqDecision Rank.
Proof. solve_decision. Defined.

(** A card object [{ suit, rank, value }]. *)
Record Card : Type := mkCard { suit : Suit; rank : Rank; value : Z }.

#[global] Instance Card_eq_dec : EqDecision Card.
Proof. solve_decision. Defined.

Definition suits : list Suit := [hearts; diamonds; clubs; spades].

Definition ranks : list Rank :=
  [R2; R3; R4; R5; R6; R7; R8; R9; R10; RJ; RQ; RK; RA].

(** [rank === 'A'] *)
Definition isAce (r : Rank) : bool :=
  match r with RA => true | _ => false end.

(** [['J', 'Q', 'K'].includes(rank)] *)
Definition isFace (r : Rank) : bool :=
  match r with RJ | RQ | RK => true | _ => false end.

(** [parseInt(rank)].  The source only calls it on the numeral ranks; on a
    letter JavaScript would give NaN, which no call site reaches, and the
    model gives 0 there. *)
Definition parseInt (r : Rank) : Z :=
  match r with
  | R2 => 2 | R3 => 3 | R4 => 4 | R5 => 5 | R6 => 6
  | R7 => 7 | R8 => 8 | R9 => 9 | R10 => 10
  | RJ | RQ | RK | RA => 0
  end.

(** The [value] that [createDeck] stores in a card of rank [r]. *)
Definition cardValue (r : Rank) : Z :=
  if isFace r then 10 else if isAce r then 11 else parseInt r.

(** The object [{ suit, rank, value }] that [createDeck] pushes. *)
Definition makeCard (s : Suit) (r : Rank) : Card := mkCard s r (cardValue r).

Definition createDeck : list Card :=
  flat_map (fun s => map (fun r => makeCard s r) ranks) suits.

(** [[deck[i], deck[j]] = [deck[j], deck[i]]]: both reads happen before
    either write. *)
Definition swap (i j : nat) (deck : list Card) : list Card :=
  match deck !! i, deck !! j with
  | Some ci, Some cj => <[j := ci]> (<[i := cj]> deck)
  | _, _ => deck
  end.

(** The body of the loop of [shuffleDeck], run for [i], [i - 1], ..., 1. *)
Fixpoint shuffleFrom (rnd : nat -> nat) (i : nat) (deck : list Card)
  : list Card :=
  match i with
  | O => deck
  | S i' => shuffleFrom rnd i' (swap i (rnd i mod S i)%nat deck)
  end.

Definition shuffleDeck (rnd : nat -> nat) (deck : list Card) : list Card :=
  shuffleFrom rnd (length deck - 1)%nat deck.

(** [deck.pop()]: the last element and the rest, [None] on the empty
    array (where JavaScript returns [undefined]). *)
Definition pop (deck : list Card) : option (Card * list Card) :=
  match reverse deck with
  | [] => None
  | c :: r => Some (c, reverse r)
  end.

(** ** The hand evaluator *)

Record HandValue : Type := mkHandValue { total : Z; isSoft : bool }.

(** First pass of [calculateHandValue]: the running [total] and
    [numAces]. *)
Definition sumCards (hand : list Card) : Z * nat :=
  foldl (fun '(total, numAces) card =>
           if isAce (rank card) then (total + 11, S numAces)
           else (total + value card, numAces))
        (0, O) hand.

(** Second pass: [while (total > 21 && numAces > 0) { total -= 10;
    numAces--; }]. *)
Fixpoint adjustAces (total : Z) (numAces : nat) : Z * nat :=
  match numAces with
  | O => (total, O)
  | S n => if 21 <? total then adjustAces (total - 10) n
           else (total, numAces)
  end.

Definition calculateHandValue (hand : list Card) : HandValue :=
  let '(total, numAces) := sumCards hand in
  let '(total, numAces) := adjustAces total numAces in
  mkHandValue total (0 <? numAces)%nat.

(** ** The auto-play policy *)

(** [list.includes(v)] on an array of numbers. *)
Definition includes (l : list Z) (v : Z) : bool := existsb (Z.eqb v) l.

Definition dealerUpCardValue (dealerUpCard : Card) : Z :=
  if isAce (rank dealerUpCard) then 11
  else if isFace (rank dealerUpCard) then 10
  else parseInt (rank dealerUpCard).

Definition shouldAutoPlayHit
    (playerHand : list Card) (dealerUpCard : Card) (playerCardCount : nat)
  : bool :=
  let playerTotal := total (calculateHandValue playerHand) in
  let playerIsSoft := isSoft (calculateHandValue playerHand) in
  let upValue := dealerUpCardValue dealerUpCard in
  if (playerCardCount =? 5)%nat && (playerTotal <=? 21)
     && (10 <=? 21 - playerTotal)
  then true
  else if 21 <=? playerTotal then false
  else if playerIsSoft then
    if playerTotal <=? 17 then true
    else if playerTotal =? 18 then negb (includes [2; 3; 4; 5; 6; 7; 8] upValue)
    else false
  else
    if playerTotal <=? 11 then true
    else if playerTotal =? 12 then negb (includes [4; 5; 6] upValue)
    else if (13 <=? playerTotal) && (playerTotal <=? 16)
    then negb (includes [2; 3; 4; 5; 6] upValue)
    else false.

(** ** The state of the component *)

(** The values of [gamePhase].  ['autoPlay'] is only ever compared
    against (in [hitPlayer] and [standPlayer]); no setter assigns it. *)
Inductive Phase : Type := betting | playerTurn | dealerTurn | result | autoPlay.

(** The values of [lastHandResult]; [NoResult] is the empty string. *)
Inductive HandResult : Type := NoResult | Win | Loss | Push.

#[global] Instance Phase_eq_dec : EqDecision Phase.
Proof. solve_decision. Defined.

#[global] Instance HandResult_eq_dec : EqDecision HandResult.
Proof. solve_decision. Defined.

(** [gamePhase === 'q'] *)
Definition isPhase (p q : Phase) : bool :=
  match p, q with
  | betting, betting | playerTurn, playerTurn | dealerTurn, dealerTurn
  | result, result | autoPlay, autoPlay => true
  | _, _ => false
  end.

Definition resultString (r : HandResult) : string :=
  match r with
  | NoResult => EmptyString
  | Win => "Win"
  | Loss => "Loss"
  | Push => "Push"
  end.

(** One field per [useState] of [BlackjackGame]. *)
Record GameState : Type := mkGameState {
  bankroll : Z;
  throughput : Z;
  points : Z;
  deck : list Card;
  playerHand : list Card;
  dealerHand : list Card;
  betAmount : Z;
  gamePhase : Phase;
  message : string;
  autoPlayMode : bool;
  lastPlayerTotal : Z;
  lastDealerTotal : Z;
  lastHandResult : HandResult
}.

(** The arguments of the [useState] calls. *)
Definition initialState : GameState :=
  {| bankroll := 1000; throughput := 0; points := 0;
     deck := []; playerHand := []; dealerHand := [];
     betAmount := 10; gamePhase := betting;
     message := "Place your bet and click Deal!";
     autoPlayMode := false;
     lastPlayerTotal := 0; lastDealerTotal := 0;
     lastHandResult := NoResult |}.

(** A queued state update. *)
Definition Update : Type := GameState -> GameState.

Definition skip : Update := fun s => s.

(** [u >>> v]: [u] was queued before [v]. *)
Definition andThen (u v : Update) : Update := fun s => v (u s).

Infix ">>>" := andThen (at level 61, left associativity).

(** What the state is once the updates a handler queued are applied: the
    handler reads the state it closed over, the queue runs on that same
    state. *)
Definition commit (handler : GameState -> Update) (s : GameState)
  : GameState := handler s s.

Definition setBankrollWith (f : Z -> Z) : Update := fun s =>
  {| bankroll := f (bankroll s); throughput := throughput s;
     points := points s; deck := deck s; playerHand := playerHand s;
     dealerHand := dealerHand s; betAmount := betAmount s;
     gamePhase := gamePhase s; message := message s;
     autoPlayMode := autoPlayMode s; lastPlayerTotal := lastPlayerTotal s;
     lastDealerTotal := lastDealerTotal s;
     lastHandResult := lastHandResult s |}.

Definition setBankroll (v : Z) : Update := setBankrollWith (fun _ => v).

Definition setThroughputWith (f : Z -> Z) : Update := fun s =>
  {| bankroll := bankroll s; throughput := f (throughput s);
     points := points s; deck := deck s; playerHand := playerHand s;
     dealerHand := dealerHand s; betAmount := betAmount s;
     gamePhase := gamePhase s; message := message s;
     autoPlayMode := autoPlayMode s; lastPlayerTotal := lastPlayerTotal s;
     lastDealerTotal := lastDealerTotal s;
     lastHandResult := lastHandResult s |}.

Definition setThroughput (v : Z) : Update := setThroughputWith (fun _ => v).

Definition setPoints (v : Z) : Update := fun s =>
  {| bankroll := bankroll s; throughput := throughput s;
     points := v; deck := deck s; playerHand := playerHand s;
     dealerHand := dealerHand s; betAmount := betAmount s;
     gamePhase := gamePhase s; message := message s;
     autoPlayMode := autoPlayMode s; lastPlayerTotal := lastPlayerTotal s;
     lastDealerTotal := lastDealerTotal s;
     lastHandResult := lastHandResult s |}.

Definition setDeck (v : list Card) : Update := fun s =>
  {| bankroll := bankroll s; throughput := throughput s;
     points := points s; deck := v; playerHand := playerHand s;
     dealerHand := dealerHand s; betAmount := betAmount s;
     gamePhase := gamePhase s; message := message s;
     autoPlayMode := autoPlayMode s; lastPlayerTotal := lastPlayerTotal s;
     lastDealerTotal := lastDealerTotal s;
     lastHandResult := lastHandResult s |}.

Definition setPlayerHand (v : list Card) : Update := fun s =>
  {| bankroll := bankroll s; throughput := throughput s;
     points := points s; deck := deck s; playerHand := v;
     dealerHand := dealerHand s; betAmount := betAmount s;
     gamePhase := gamePhase s; message := message s;
     autoPlayMode := autoPlayMode s; lastPlayerTotal := lastPlayerTotal s;
     lastDealerTotal := lastDealerTotal s;
     lastHandResult := lastHandResult s |}.

Definition setDealerHand (v : list Card) : Update := fun s =>
  {| bankroll := bankroll s; throughput := throughput s;
     points := points s; deck := deck s; playerHand := playerHand s;
     dealerHand := v; betAmount := betAmount s;
     gamePhase := gamePhase s; message := message s;
     autoPlayMode := autoPlayMode s; lastPlayerTotal := lastPlayerTotal s;
     lastDealerTotal := lastDealerTotal s;
     lastHandResult := lastHandResult s |}.

Definition setBetAmount (v : Z) : Update := fun s =>
  {| bankroll := bankroll s; throughput := throughput s;
     points := points s; deck := deck s; playerHand := playerHand s;
     dealerHand := dealerHand s; betAmount := v;
     gamePhase := gamePhase s; message := message s;
     autoPlayMode := autoPlayMode s; lastPlayerTotal := lastPlayerTotal s;
     lastDealerTotal := lastDealerTotal s;
     lastHandResult := lastHandResult s |}.

Definition setGamePhase (v : Phase) : Update := fun s =>
  {| bankroll := bankroll s; throughput := throughput s;
     points := points s; deck := deck s; playerHand := playerHand s;
     dealerHand := dealerHand s; betAmount := betAmount s;
     gamePhase := v; message := message s;
     autoPlayMode := autoPlayMode s; lastPlayerTotal := lastPlayerTotal s;
     lastDealerTotal := lastDealerTotal s;
     lastHandResult := lastHandResult s |}.

Definition setMessage (v : string) : Update := fun s =>
  {| bankroll := bankroll s; throughput := throughput s;
     points := points s; deck := deck s; playerHand := playerHand s;
     dealerHand := dealerHand s; betAmount := betAmount s;
     gamePhase := gamePhase s; message := v;
     autoPlayMode := autoPlayMode s; lastPlayerTotal := lastPlayerTotal s;
     lastDealerTotal := lastDealerTotal s;
     lastHandResult := lastHandResult s |}.

Definition setAutoPlayMode (v : bool) : Update := fun s =>
  {| bankroll := bankroll s; throughput := throughput s;
     points := points s; deck := deck s; playerHand := playerHand s;
     dealerHand := dealerHand s; betAmount := betAmount s;
     gamePhase := gamePhase s; message := message s;
     autoPlayMode := v; lastPlayerTotal := lastPlayerTotal s;
     lastDealerTotal := lastDealerTotal s;
     lastHandResult := lastHandResult s |}.

Definition setLastPlayerTotal (v : Z) : Update := fun s =>
  {| bankroll := bankroll s; throughput := throughput s;
     points := points s; deck := deck s; playerHand := playerHand s;
     dealerHand := dealerHand s; betAmount := betAmount s;
     gamePhase := gamePhase s; message := message s;
     autoPlayMode := autoPlayMode s; lastPlayerTotal := v;
     lastDealerTotal := lastDealerTotal s;
     lastHandResult := lastHandResult s |}.

Definition setLastDealerTotal (v : Z) : Update := fun s =>
  {| bankroll := bankroll s; throughput := throughput s;
     points := points s; deck := deck s; playerHand := playerHand s;
     dealerHand := dealerHand s; betAmount := betAmount s;
     gamePhase := gamePhase s; message := message s;
     autoPlayMode := autoPlayMode s; lastPlayerTotal := lastPlayerTotal s;
     lastDealerTotal := v;
     lastHandResult := lastHandResult s |}.

Definition setLastHandResult (v : HandResult) : Update := fun s =>
  {| bankroll := bankroll s; throughput := throughput s;
     points := points s; deck := deck s; playerHand := playerHand s;
     dealerHand := dealerHand s; betAmount := betAmount s;
     gamePhase := gamePhase s; message := message s;
     autoPlayMode := autoPlayMode s; lastPlayerTotal := lastPlayerTotal s;
     lastDealerTotal := lastDealerTotal s;
     lastHandResult := v |}.

(** ** The handlers of the component

    Each takes the state [c] its closure captured (the state of the render
    it was created in) and returns the updates it queues. *)

Definition resetGame : Update :=
  setBankroll 1000 >>> setThroughput 0 >>> setPoints 0 >>>
  setDeck [] >>> setPlayerHand [] >>> setDealerHand [] >>>
  setGamePhase betting >>>
  setMessage "Game reset! Place your bet and click Deal!" >>>
  setLastPlayerTotal 0 >>> setLastDealerTotal 0 >>>
  setLastHandResult NoResult >>> setAutoPlayMode false.

(** The four [pop]s of [dealHand], in evaluation order:
    [[newDeck.pop(), newDeck.pop()]] for the player, then the same for the
    dealer.  The result is (player hand, dealer hand, remaining deck). *)
Definition dealCards (newDeck : list Card)
  : option (list Card * list Card * list Card) :=
  '(p1, d1) ← pop newDeck;
  '(p2, d2) ← pop d1;
  '(q1, d3) ← pop d2;
  '(q2, d4) ← pop d3;
  Some ([p1; p2], [q1; q2], d4).

(** [dealHand].  The deck it pops from is a shuffled [createDeck], which
    holds 52 cards, so [dealCards] never fails (lemma [dealCards_shuffled]);
    the [None] branch only makes the function total. *)
Definition dealHand (rnd : nat -> nat) (c : GameState) : Update :=
  if negb (isPhase (gamePhase c) betting) && negb (isPhase (gamePhase c) result)
  then skip
  else if bankroll c <? betAmount c then
    setMessage "Not enough money to place this bet!" >>>
    (if autoPlayMode c then setAutoPlayMode false else skip)
  else
    match dealCards (shuffleDeck rnd createDeck) with
    | None => skip
    | Some (newPlayerHand, newDealerHand, newDeck) =>
      let playerVal := total (calculateHandValue newPlayerHand) in
      let dealerVal := total (calculateHandValue newDealerHand) in
      setBankrollWith (fun prev => prev - betAmount c) >>>
      setThroughputWith (fun prev => prev + betAmount c) >>>
      setDeck newDeck >>>
      setPlayerHand newPlayerHand >>>
      setDealerHand newDealerHand >>>
      setGamePhase playerTurn >>>
      setMessage "Your turn: Hit or Stand?" >>>
      setLastPlayerTotal 0 >>>
      setLastDealerTotal 0 >>>
      setLastHandResult NoResult >>>
      (if (playerVal =? 21) && (length newPlayerHand =? 2)%nat then
         if (dealerVal =? 21) && (length newDealerHand =? 2)%nat then
           setMessage "Both have Blackjack! Push." >>>
           setBankrollWith (fun prev => prev + betAmount c) >>>
           setGamePhase result >>>
           setLastHandResult Push >>>
           setLastPlayerTotal playerVal >>>
           setLastDealerTotal dealerVal
         else
           setMessage "Blackjack! You win!" >>>
           setBankrollWith (fun prev => prev + betAmount c * 2) >>>
           setGamePhase result >>>
           setLastHandResult Win >>>
           setLastPlayerTotal playerVal >>>
           setLastDealerTotal dealerVal
       else skip) >>>
      (if (dealerVal =? 21) && (length newDealerHand =? 2)%nat then
         setMessage "Dealer has Blackjack! You lose." >>>
         setGamePhase result >>>
         setLastHandResult Loss >>>
         setLastPlayerTotal playerVal >>>
         setLastDealerTotal dealerVal
       else skip)
    end.

(** [hitPlayer].  [pop (deck c)] is [None] exactly when
    [deck.length === 0]. *)
Definition hitPlayer (c : GameState) : Update :=
  if negb (isPhase (gamePhase c) playerTurn)
     && negb (isPhase (gamePhase c) autoPlay)
  then skip
  else
    match pop (deck c) with
    | None =>
      setMessage "Deck is empty! Please Reset the game." >>>
      (if autoPlayMode c then setAutoPlayMode false else skip)
    | Some (card, newDeck) =>
      let newPlayerHand := playerHand c ++ [card] in
      let playerTotal := total (calculateHandValue newPlayerHand) in
      setPlayerHand newPlayerHand >>>
      setDeck newDeck >>>
      (if (length newPlayerHand =? 6)%nat && (playerTotal <=? 21) then
         setMessage "6 Card Charlie! You win automatically!" >>>
         setBankrollWith (fun prev => prev + betAmount c * 2) >>>
         setGamePhase result >>>
         setLastHandResult Win >>>
         setLastPlayerTotal playerTotal >>>
         setLastDealerTotal (total (calculateHandValue (dealerHand c)))
       else if 21 <? playerTotal then
         setMessage "You busted! Dealer wins." >>>
         setGamePhase result >>>
         setLastHandResult Loss >>>
         setLastPlayerTotal playerTotal >>>
         setLastDealerTotal (total (calculateHandValue (dealerHand c)))
       else if negb (autoPlayMode c) then
         setMessage "Your turn: Hit or Stand?"
       else skip)
    end.

Definition standPlayer (c : GameState) : Update :=
  if negb (isPhase (gamePhase c) playerTurn)
     && negb (isPhase (gamePhase c) autoPlay)
  then skip
  else setGamePhase dealerTurn >>> setMessage "Dealer is playing...".

(** [determineWinner]: [bankroll] is the closure's, and the bankroll is
    written only when it changes. *)
Definition determineWinner
    (c : GameState) (playerHand dealerHand : list Card) (bet : Z) : Update :=
  let playerVal := total (calculateHandValue playerHand) in
  let dealerVal := total (calculateHandValue dealerHand) in
  let '(resultMessage, handResult, newBankroll) :=
    if 21 <? playerVal then
      ("You busted! Dealer wins.", Loss, bankroll c)
    else if 21 <? dealerVal then
      ("Dealer busted! You win!", Win, bankroll c + bet * 2)
    else if (length playerHand =? 6)%nat && (playerVal <=? 21) then
      ("6 Card Charlie! You win automatically!", Win, bankroll c + bet * 2)
    else if (length dealerHand =? 6)%nat && (dealerVal <? 17) then
      ("Dealer 6 Card Charlie! Dealer loses!", Win, bankroll c + bet * 2)
    else if dealerVal <? playerVal then
      ("You win!", Win, bankroll c + bet * 2)
    else if playerVal <? dealerVal then
      ("Dealer wins.", Loss, bankroll c)
    else
      ("It's a push!", Push, bankroll c + bet) in
  setMessage resultMessage >>>
  setLastHandResult handResult >>>
  setGamePhase result >>>
  (if negb (newBankroll =? bankroll c) then setBankroll newBankroll else skip).

(** The guard of the [while] loop of [dealerPlay]:
    [dealerTotal < 17 && currentDealerHand.length < 6]. *)
Definition dealerShouldDraw (currentDealerHand : list Card) : bool :=
  (total (calculateHandValue currentDealerHand) <? 17)
  && (length currentDealerHand <? 6)%nat.

(** The loop of [dealerPlay].  [stack] is [currentDeck] reversed, so that
    its head is the card [currentDeck.pop()] returns; [queued] collects
    the updates of the iterations.  The result is the final
    [currentDealerHand], the rest of the stack and the queue.  The pauses
    ([await] of a 100 ms timer) only pace the display and are left out. *)
Fixpoint dealerLoop (currentDealerHand stack : list Card) (queued : Update)
  {struct stack} : list Card * list Card * Update :=
  if dealerShouldDraw currentDealerHand then
    match stack with
    | [] =>
      (currentDealerHand, [],
       queued >>> setMessage "Deck is empty! Dealer cannot draw more.")
    | newCard :: rest =>
      dealerLoop (currentDealerHand ++ [newCard]) rest
        (queued >>> setDealerHand (currentDealerHand ++ [newCard])
                >>> setDeck (reverse rest))
    end
  else (currentDealerHand, stack, queued).

(** The branch of [dealerPlay] that settles a dealer hand of six cards
    below 17 without calling [determineWinner]. *)
Definition dealerCharlie (c : GameState) : Update :=
  setMessage "Dealer 6 Card Charlie! Dealer loses!" >>>
  setBankrollWith (fun prev => prev + betAmount c * 2) >>>
  setGamePhase result >>>
  setLastHandResult Win.

Definition dealerPlay (c : GameState) : Update :=
  let '(currentDealerHand, _, queued) :=
    dealerLoop (dealerHand c) (reverse (deck c)) skip in
  let dealerTotal := total (calculateHandValue currentDealerHand) in
  queued >>>
  (if (length currentDealerHand =? 6)%nat && (dealerTotal <? 17)
   then dealerCharlie c
   else determineWinner c (playerHand c) currentDealerHand (betAmount c)) >>>
  setLastDealerTotal dealerTotal >>>
  setLastPlayerTotal (total (calculateHandValue (playerHand c))).

(** [autoPlayPlayerTurnAction].  [dealerHand[0]] is [undefined] on an
    empty dealer hand, where reading its [rank] throws before anything is
    queued after the message. *)
Definition autoPlayPlayerTurnAction (c : GameState) : Update :=
  if negb (autoPlayMode c) || negb (isPhase (gamePhase c) playerTurn)
  then skip
  else
    let playerTotal := total (calculateHandValue (playerHand c)) in
    let playerCardCount := length (playerHand c) in
    if 21 <? playerTotal then setMessage "Auto-play: Player busted!"
    else if (playerCardCount =? 6)%nat && (playerTotal <=? 21) then
      setMessage "Auto-play: 6 Card Charlie! Player wins automatically!"
    else
      match dealerHand c !! 0%nat with
      | None => skip
      | Some dealerUpCard =>
        if shouldAutoPlayHit (playerHand c) dealerUpCard playerCardCount
        then setMessage "Auto-play: Hitting..." >>> hitPlayer c
        else setMessage "Auto-play: Standing..." >>> standPlayer c
      end.

(** ** The effects and the controls *)

(** [useEffect(() => { if (gamePhase === 'dealerTurn') dealerPlay(); })] *)
Definition dealerTurnEffect (c : GameState) : Update :=
  if isPhase (gamePhase c) dealerTurn then dealerPlay c else skip.

(** [setPoints(Math.floor(throughput / 10))] *)
Definition pointsEffect (c : GameState) : Update :=
  setPoints (throughput c / 10).

(** The auto-play effect. *)
Definition autoPlayEffect (rnd : nat -> nat) (c : GameState) : Update :=
  if negb (autoPlayMode c) then skip
  else
    match gamePhase c with
    | betting =>
      setMessage "Auto-play: Dealing new hand..." >>> dealHand rnd c
    | playerTurn =>
      setMessage "Auto-play: Player's turn..." >>> autoPlayPlayerTurnAction c
    | dealerTurn => setMessage "Auto-play: Dealer is playing..."
    | result =>
      setMessage
        (String.append "Auto-play: Hand ended. "
           (String.append (resultString (lastHandResult c))
                          ". Starting next hand...")) >>>
      setGamePhase betting
    | autoPlay => skip
    end.

(** The effect that re-opens betting after a hand played by hand. *)
Definition manualResultEffect (c : GameState) : Update :=
  if negb (autoPlayMode c) && isPhase (gamePhase c) result
  then setGamePhase betting else skip.

(** The [onClick] of the auto-play button: an updater on [autoPlayMode]
    that also sets the message. *)
Definition toggleAutoPlay : Update := fun s =>
  if autoPlayMode s
  then (setMessage "Auto-play stopped." >>> setAutoPlayMode false) s
  else (setMessage "Auto-play started..." >>> setAutoPlayMode true) s.

(** The [<option>]s of the bet [<select>]. *)
Definition betOptions : list Z :=
  [1; 2; 3; 4; 5; 10; 15; 20; 25; 30; 35; 40; 45; 50].

(** What can happen to the component: a control is used, or an effect
    runs.  [ClickDeal] and [RunAutoPlayEffect] carry the random choices of
    the shuffle they may perform. *)
Inductive Event : Type :=
  | ClickDeal (rnd : nat -> nat)
  | ClickHit
  | ClickStand
  | ClickAutoPlay
  | ClickReset
  | SelectBet (amount : Z)
  | RunDealerTurnEffect
  | RunPointsEffect
  | RunAutoPlayEffect (rnd : nat -> nat)
  | RunManualResultEffect.

(** One atomic step.  A control does nothing while its [disabled]
    attribute holds; the [<select>] only offers [betOptions].  The effect
    run at mount, [resetGame()], is [ClickReset] at [initialState]. *)
Definition step (e : Event) (s : GameState) : GameState :=
  match e with
  | ClickDeal rnd =>
    if (negb (isPhase (gamePhase s) betting)
        && negb (isPhase (gamePhase s) result)) || autoPlayMode s
    then s else commit (dealHand rnd) s
  | ClickHit =>
    if negb (isPhase (gamePhase s) playerTurn)
       && negb (isPhase (gamePhase s) autoPlay)
    then s else commit hitPlayer s
  | ClickStand =>
    if negb (isPhase (gamePhase s) playerTurn)
       && negb (isPhase (gamePhase s) autoPlay)
    then s else commit standPlayer s
  | ClickAutoPlay => toggleAutoPlay s
  | ClickReset => if autoPlayMode s then s else resetGame s
  | SelectBet amount =>
    if negb (isPhase (gamePhase s) betting)
       || negb (bool_decide (amount ∈ betOptions))
    then s else setBetAmount amount s
  | RunDealerTurnEffect => commit dealerTurnEffect s
  | RunPointsEffect => commit pointsEffect s
  | RunAutoPlayEffect rnd => commit (autoPlayEffect rnd) s
  | RunManualResultEffect => commit manualResultEffect s
  end.

(** The state after a sequence of events, oldest first. *)
Definition run (es : list Event) (s : GameState) : GameState :=
  foldl (fun s e => step e s) s es.


(** The totals the render shows in the two hand headings: the dealer's is
    ['?'] ([None]) while its second card is hidden. *)
Definition dealerHandLabel (s : GameState) : option Z :=
  if isPhase (gamePhase s) result || isPhase (gamePhase s) dealerTurn
     || isPhase (gamePhase s) betting
  then Some (total (calculateHandValue (dealerHand s))) else None.

Definition playerHandLabel (s : GameState) : Z :=
  total (calculateHandValue (playerHand s)).

(** ** The specification's vocabulary

    The definitions below follow the words of the specification; the
    theorems compare them with the code above. *)

(** A card as [createDeck] builds it: its [value] is the one of its
    rank. *)
Definition wellFormed (c : Card) : Prop := value c = cardValue (rank c).

(** "numeric rank, 10 for face cards, 11 for ace" *)
Definition baseValue (r : Rank) : Z :=
  match r with
  | R2 => 2 | R3 => 3 | R4 => 4 | R5 => 5 | R6 => 6
  | R7 => 7 | R8 => 8 | R9 => 9 | R10 => 10
  | RJ | RQ | RK => 10
  | RA => 11
  end.

(** "Sum values treating every ace as 11 and face cards as 10." *)
Definition rawTotal (hand : list Card) : Z :=
  foldr (fun c acc => baseValue (rank c) + acc) 0 hand.

Definition countAces (hand : list Card) : nat :=
  length (filter (fun c => isAce (rank c) = true) hand).

(** The decision table of the player strategy policy, rules 1 to 4 in
    their priority order, on the hand's total, its softness, its number of
    cards and the value of the dealer's up-card. *)
Definition strategyTable
    (total : Z) (soft : bool) (cardCount : nat) (upValue : Z) : bool :=
  if (cardCount =? 5)%nat && (10 <=? 21 - total) then true
  else if 21 <=? total then false
  else if soft then
    if total <=? 17 then true
    else if total =? 18 then includes [9; 10; 11] upValue
    else false
  else
    if total <=? 11 then true
    else if total =? 12 then negb (includes [4; 5; 6] upValue)
    else if total <=? 16 then negb (includes [2; 3; 4; 5; 6] upValue)
    else false.

(** The same table with rule 1, the 5-card safety rule, removed. *)
Definition strategyTableWithoutFiveCardRule
    (total : Z) (soft : bool) (upValue : Z) : bool :=
  if 21 <=? total then false
  else if soft then
    if total <=? 17 then true
    else if total =? 18 then includes [9; 10; 11] upValue
    else false
  else
    if total <=? 11 then true
    else if total =? 12 then negb (includes [4; 5; 6] upValue)
    else if total <=? 16 then negb (includes [2; 3; 4; 5; 6] upValue)
    else false.

(** The resolution order of settlement, first matching rule first: the
    outcome and the bankroll delta. *)
Definition settle
    (playerTotal dealerTotal : Z) (playerCards dealerCards : nat) (wager : Z)
  : HandResult * Z :=
  if 21 <? playerTotal then (Loss, 0)
  else if 21 <? dealerTotal then (Win, 2 * wager)
  else if (playerCards =? 6)%nat && (playerTotal <=? 21) then (Win, 2 * wager)
  else if (dealerCards =? 6)%nat && (dealerTotal <? 17) then (Win, 2 * wager)
  else if dealerTotal <? playerTotal then (Win, 2 * wager)
  else if playerTotal <? dealerTotal then (Loss, 0)
  else (Push, wager).


(** Oracles for concrete shuffles: [keepOrder] swaps every position with
    itself, so the deck stays in the order of [createDeck] and the player
    is dealt the ace and king of spades; [bothNaturals] also moves the ace
    of clubs (index 38) to index 49, which gives the dealer the ace of
    clubs and the jack of spades. *)
Definition keepOrder : nat -> nat := fun i => i.

Definition bothNaturals : nat -> nat :=
  fun i => if (i =? 49)%nat then 38%nat else i.

(** [plainDeal] swaps the two of hearts (index 0) to the top: the player
    is dealt 2 and king (12), the dealer queen and jack (20), and nobody
    holds a natural. *)
Definition plainDeal : nat -> nat :=
  fun i => if (i =? 51)%nat then 0%nat else i.



(** A state in which the wager exceeds the bankroll while auto-play is
    engaged. *)
Definition shortOfFundsState : GameState :=
  {| bankroll := 5; throughput := 1200; points := 120;
     deck := []; playerHand := []; dealerHand := [];
     betAmount := 10; gamePhase := betting;
     message := "Auto-play: Dealing new hand...";
     autoPlayMode := true;
     lastPlayerTotal := 22; lastDealerTotal := 18;
     lastHandResult := Loss |}.

(** [winningDeal] deals the player ten and king (20) and the dealer nine
    and jack (19). *)
Definition winningDeal : nat -> nat :=
  fun i => if (i =? 51)%nat then 47%nat
           else if (i =? 49)%nat then 46%nat else i.

(** What holds of the cards while a round is being played: in the
    player's turn and at the start of the dealer's, the dealer holds two
    cards, the player two to five worth at most 21, and the deck the
    other cards of the 52.  The phase is never ['autoPlay']. *)
Definition roundInvariant (s : GameState) : Prop :=
  match gamePhase s with
  | playerTurn | dealerTurn =>
    length (dealerHand s) = 2%nat
    /\ (2 <= length (playerHand s) <= 5)%nat
    /\ (length (deck s) + length (playerHand s) = 50)%nat
    /\ total (calculateHandValue (playerHand s)) <= 21
  | autoPlay => False
  | betting | result => True
  end.

(** The cards the state holds: the deck and the two hands. *)
Definition cardsInPlay (s : GameState) : list Card :=
  deck s ++ playerHand s ++ dealerHand s.

(** Either no card is out, or the deck and the hands together are the 52
    cards. *)
Definition conserved (s : GameState) : Prop :=
  cardsInPlay s = [] \/ cardsInPlay s ≡ₚ createDeck.

(** [fiveCardDeal] brings the four twos and the three of hearts to the
    top: the player is dealt 2, 2 and draws 2, 2, 3 and then the seven of
    spades; the dealer holds queen and jack. *)
Definition fiveCardDeal : nat -> nat :=
  fun i => if (i =? 51)%nat then 0%nat
           else if (i =? 50)%nat then 13%nat
           else if (i =? 47)%nat then 26%nat
           else if (i =? 46)%nat then 39%nat
           else if (i =? 45)%nat then 1%nat else i.

(** ** The render

    What the component shows of the cards: [getSuitSymbol], [renderCard]
    and [renderHand], which closes over [gamePhase]. *)

(** The suit strings of the deck all have a case of the [switch]; its
    [default] (the empty string) is for no suit. *)
Definition getSuitSymbol (s : Suit) : string :=
  match s with
  | hearts => "♥️"
  | diamonds => "♦️"
  | clubs => "♣️"
  | spades => "♠️"
  end.

(** What [renderCard] shows: a question mark, or the rank, the suit
    symbol and the colour (red for [text-red-600]). *)
Inductive CardView : Type :=
  | faceDown
  | faceUp (rankShown : Rank) (symbol : string) (red : bool).

Definition renderCard (card : Card) (isHidden : bool) : CardView :=
  if isHidden then faceDown
  else faceUp (rank card) (getSuitSymbol (suit card))
         (bool_decide (suit card = hearts)
          || bool_decide (suit card = diamonds)).

(** The test of [renderHand] for showing a card hidden. *)
Definition hidesCard (phase : Phase) (isDealer : bool) (index : nat) : bool :=
  isDealer && (index =? 1)%nat && negb (isPhase phase result)
  && negb (isPhase phase dealerTurn) && negb (isPhase phase betting).

Definition renderHand (phase : Phase) (hand : list Card) (isDealer : bool)
  : list CardView :=
  imap (fun index card => renderCard card (hidesCard phase isDealer index))
       hand.

(** ** Further invariants *)


(** The closure [c] of a handler and the state [s] its queue runs on
    agree on the fields the game logic reads. *)
Definition sameGame (c s : GameState) : Prop :=
  bankroll s = bankroll c /\ throughput s = throughput c
  /\ points s = points c /\ betAmount s = betAmount c
  /\ gamePhase s = gamePhase c /\ autoPlayMode s = autoPlayMode c
  /\ deck s = deck c /\ playerHand s = playerHand c
  /\ dealerHand s = dealerHand c.



(** ** Proof tools *)

(** Unfolds the setters and sequencing of an update chain. *)
Ltac unfold_updates :=
  unfold commit, andThen, skip, setBankroll, setBankrollWith, setThroughput,
    setThroughputWith, setPoints, setDeck, setPlayerHand, setDealerHand,
    setBetAmount, setGamePhase, setMessage, setAutoPlayMode,
    setLastPlayerTotal, setLastDealerTotal, setLastHandResult in *.

(** Computes the fields of a state under an update chain, setter by
    setter, without writing the intermediate states out. *)
Ltac simpl_updates :=
  unfold skip;
  cbn [commit andThen setBankroll setBankrollWith setThroughput
       setThroughputWith setPoints setDeck setPlayerHand setDealerHand
       setBetAmount setGamePhase setMessage setAutoPlayMode
       setLastPlayerTotal setLastDealerTotal setLastHandResult
       bankroll throughput points deck playerHand dealerHand betAmount
       gamePhase message autoPlayMode lastPlayerTotal lastDealerTotal
       lastHandResult].

(** * Properties *)

(** Sequencing, applied. *)
Lemma andThen_apply (u v : Update) (s : GameState) :
  (u >>> v) s = v (u s).
Proof. reflexivity. Qed.

(** ** The hand evaluator *)

Section Evaluator.

Lemma countAces_cons (c : Card) (hand : list Card) :
  countAces (c :: hand)
  = if isAce (rank c) then S (countAces hand) else countAces hand.
Proof.
  unfold countAces. rewrite filter_cons.
  destruct (isAce (rank c)); case_decide; done.
Qed.

Lemma sumCards_foldl (hand : list Card) (t : Z) (n : nat) :
  Forall wellFormed hand ->
  foldl (fun '(total, numAces) card =>
           if isAce (rank card) then (total + 11, S numAces)
           else (total + value card, numAces))
        (t, n) hand
  = (t + rawTotal hand, (n + countAces hand)%nat).
Proof.
  intros Hwf. revert t n.
  induction Hwf as [|c hand Hc _ IH]; intros t n.
  - cbn. f_equal; lia.
  - rewrite countAces_cons. cbn [foldl rawTotal foldr].
    red in Hc. rewrite Hc.
    destruct (rank c); cbn [isAce]; rewrite IH; unfold rawTotal; cbn;
      f_equal; lia.
Qed.

Lemma sumCards_spec (hand : list Card) :
  Forall wellFormed hand ->
  sumCards hand = (rawTotal hand, countAces hand).
Proof.
  intros Hwf. unfold sumCards. rewrite sumCards_foldl by done.
  f_equal.
Qed.

(** The loop demotes [k] aces, each while the total was above 21, and
    stops at the first [k] where the total is at most 21 or no ace is
    left. *)
Lemma adjustAces_spec (n : nat) : forall (t : Z),
  exists k : nat,
    (k <= n)%nat /\
    adjustAces t n = (t - 10 * Z.of_nat k, (n - k)%nat) /\
    (forall j : nat, (j < k)%nat -> 21 < t - 10 * Z.of_nat j) /\
    (t - 10 * Z.of_nat k <= 21 \/ k = n).
Proof.
  induction n as [|n IH]; intros t.
  - exists O. cbn. split_and!; [lia | f_equal; lia | lia | by right].
  - cbn [adjustAces]. destruct (Z.ltb_spec 21 t) as [Hgt|Hle].
    + destruct (IH (t - 10)) as (k & Hk & Heq & Hall & Hstop).
      exists (S k). split_and!.
      * lia.
      * rewrite Heq. f_equal; lia.
      * intros [|j] Hj; [lia|].
        specialize (Hall j ltac:(lia)). lia.
      * destruct Hstop as [Hstop| ->]; [left; lia | by right].
    + exists O. split_and!; [lia | f_equal; lia | lia | left; lia].
Qed.

Lemma makeCard_wellFormed (s : Suit) (r : Rank) : wellFormed (makeCard s r).
Proof. reflexivity. Qed.

Lemma createDeck_wellFormed : Forall wellFormed createDeck.
Proof. unfold createDeck. cbn. repeat constructor. Qed.

Lemma calculateHandValue_unfold (hand : list Card) :
  calculateHandValue hand
  = let r := adjustAces (sumCards hand).1 (sumCards hand).2 in
    mkHandValue r.1 (0 <? r.2)%nat.
Proof.
  unfold calculateHandValue. destruct (sumCards hand) as [t n]; cbn.
  by destruct (adjustAces t n).
Qed.

(** The number of aces the evaluator demotes, with what the loop
    guarantees about it. *)
Lemma calculateHandValue_demoted (hand : list Card) :
  Forall wellFormed hand ->
  exists demoted : nat,
    (demoted <= countAces hand)%nat /\
    total (calculateHandValue hand)
      = rawTotal hand - 10 * Z.of_nat demoted /\
    (forall j : nat, (j < demoted)%nat ->
                     21 < rawTotal hand - 10 * Z.of_nat j) /\
    (total (calculateHandValue hand) <= 21 \/ demoted = countAces hand) /\
    isSoft (calculateHandValue hand)
      = bool_decide (demoted < countAces hand)%nat.
Proof.
  intros Hwf. rewrite calculateHandValue_unfold, sumCards_spec by done.
  cbn [fst snd].
  destruct (adjustAces_spec (countAces hand) (rawTotal hand))
    as (k & Hk & Heq & Hall & Hstop).
  exists k. rewrite Heq. cbn [fst snd total isSoft]. split_and!; try done.
  destruct (Nat.ltb_spec 0 (countAces hand - k)) as [H|H]; symmetry;
    [apply bool_decide_eq_true_2 | apply bool_decide_eq_false_2]; lia.
Qed.

End Evaluator.

(** C3. For every hand of cards as the deck holds them, the evaluator's
    total is the sum of the ranks (ace 11, face cards 10) minus 10 for
    each demoted ace, where an ace is demoted only while the total is
    above 21 and demotion stops as soon as the total is at most 21 or no
    ace is left; [isSoft] holds exactly when an ace is still counted as
    11.  The evaluator is a function of the hand alone.  In particular
    {A, 6} is a soft 17, {A, 6, K} a hard 17 and {A, A, 9} a soft 21. *)
Theorem calculateHandValue_correct :
  (forall hand : list Card,
      Forall wellFormed hand ->
      exists demoted : nat,
        (demoted <= countAces hand)%nat /\
        total (calculateHandValue hand)
          = rawTotal hand - 10 * Z.of_nat demoted /\
        (forall j : nat, (j < demoted)%nat ->
                         21 < rawTotal hand - 10 * Z.of_nat j) /\
        (total (calculateHandValue hand) <= 21
         \/ demoted = countAces hand) /\
        isSoft (calculateHandValue hand)
          = bool_decide (demoted < countAces hand)%nat) /\
  (forall s1 s2 : Suit,
      calculateHandValue [makeCard s1 RA; makeCard s2 R6]
      = mkHandValue 17 true) /\
  (forall s1 s2 s3 : Suit,
      calculateHandValue [makeCard s1 RA; makeCard s2 R6; makeCard s3 RK]
      = mkHandValue 17 false) /\
  (forall s1 s2 s3 : Suit,
      calculateHandValue [makeCard s1 RA; makeCard s2 RA; makeCard s3 R9]
      = mkHandValue 21 true).
Proof.
  split_and!; [apply calculateHandValue_demoted | reflexivity..].
Qed.

(** The hypothesis of C3 at the hand {A, 6, K}: one ace is demoted. *)
Lemma calculateHandValue_correct_witness :
  let hand := [makeCard spades RA; makeCard hearts R6; makeCard clubs RK] in
  Forall wellFormed hand /\
  exists demoted : nat,
    (demoted <= countAces hand)%nat /\
    total (calculateHandValue hand)
      = rawTotal hand - 10 * Z.of_nat demoted /\
    (forall j : nat, (j < demoted)%nat ->
                     21 < rawTotal hand - 10 * Z.of_nat j) /\
    (total (calculateHandValue hand) <= 21 \/ demoted = countAces hand) /\
    isSoft (calculateHandValue hand)
      = bool_decide (demoted < countAces hand)%nat.
Proof.
  intros hand.
  assert (Hwf : Forall wellFormed hand) by (repeat constructor).
  split; [exact Hwf |].
  exact (proj1 calculateHandValue_correct hand Hwf).
Defined.

(** C10. The evaluator is defined on the empty hand and returns total 0,
    not soft; these are the totals the two hand headings show in the
    betting phase before any card is dealt, at the start and after a
    reset. *)
Theorem calculateHandValue_empty :
  calculateHandValue [] = mkHandValue 0 false /\
  gamePhase initialState = betting /\
  dealerHandLabel initialState = Some 0 /\
  playerHandLabel initialState = 0 /\
  (forall s : GameState,
      gamePhase (resetGame s) = betting /\
      dealerHandLabel (resetGame s) = Some 0 /\
      playerHandLabel (resetGame s) = 0).
Proof.
  split_and!; try reflexivity.
  intros s. split_and!; reflexivity.
Qed.


(** ** The auto-play policy *)

Section Strategy.

Lemma dealerUpCardValue_baseValue (up : Card) :
  dealerUpCardValue up = baseValue (rank up).
Proof. unfold dealerUpCardValue. by destruct (rank up). Qed.

Lemma baseValue_range (r : Rank) : 2 <= baseValue r <= 11.
Proof. destruct r; cbn; lia. Qed.

(** On an up-card value, "not one of 2..8" is "one of 9, 10, 11". *)
Lemma includes_soft18 (v : Z) :
  2 <= v <= 11 ->
  negb (includes [2; 3; 4; 5; 6; 7; 8] v) = includes [9; 10; 11] v.
Proof.
  intros Hv.
  assert (Hcases : v = 2 \/ v = 3 \/ v = 4 \/ v = 5 \/ v = 6 \/ v = 7
                   \/ v = 8 \/ v = 9 \/ v = 10 \/ v = 11) by lia.
  destruct_or!; subst v; reflexivity.
Qed.

(** The policy as a function of the evaluated hand. *)
Lemma shouldAutoPlayHit_table
    (playerHand : list Card) (up : Card) (count : nat) :
  shouldAutoPlayHit playerHand up count
  = strategyTable (total (calculateHandValue playerHand))
      (isSoft (calculateHandValue playerHand)) count (baseValue (rank up)).
Proof.
  unfold shouldAutoPlayHit, strategyTable.
  rewrite dealerUpCardValue_baseValue.
  pose proof (baseValue_range (rank up)) as Hup.
  generalize dependent (baseValue (rank up)); intros v Hv.
  generalize (total (calculateHandValue playerHand)); intros t.
  generalize (isSoft (calculateHandValue playerHand)); intros soft.
  rewrite (includes_soft18 v Hv).
  destruct (count =? 5)%nat, soft; cbn [andb];
    repeat match goal with
           | |- context [?a <=? ?b] => destruct (Z.leb_spec a b)
           | |- context [?a =? ?b] => destruct (Z.eqb_spec a b)
           end; cbn [andb]; try reflexivity; lia.
Qed.

(** Rule 1 only fires where the rest of the table already says hit. *)
Lemma strategyTable_five_card_rule
    (t : Z) (soft : bool) (count : nat) (v : Z) :
  strategyTable t soft count v = strategyTableWithoutFiveCardRule t soft v.
Proof.
  unfold strategyTable, strategyTableWithoutFiveCardRule.
  destruct (count =? 5)%nat; cbn [andb]; [|reflexivity].
  destruct (Z.leb_spec 10 (21 - t)); [|reflexivity].
  destruct (Z.leb_spec 21 t); [lia|].
  destruct soft.
  - destruct (Z.leb_spec t 17); [reflexivity | lia].
  - destruct (Z.leb_spec t 11); [reflexivity | lia].
Qed.

Lemma countAces_le_length (hand : list Card) :
  (countAces hand <= length hand)%nat.
Proof. unfold countAces. apply length_filter. Qed.

(** A hand of well-formed cards is worth at least 2 per card that is not
    an ace and 11 per ace, before any demotion. *)
Lemma rawTotal_lower_bound (hand : list Card) :
  11 * Z.of_nat (countAces hand)
  + 2 * (Z.of_nat (length hand) - Z.of_nat (countAces hand))
  <= rawTotal hand.
Proof.
  induction hand as [|c hand IH]; [cbn; lia|].
  rewrite countAces_cons. unfold rawTotal in *. cbn [foldr length].
  destruct (rank c); cbn [isAce baseValue]; lia.
Qed.

(** A soft hand counts one ace as 11 and every other card as at least
    1, so it is worth at least 10 more than its number of cards. *)
Lemma soft_total_lower_bound (hand : list Card) :
  Forall wellFormed hand ->
  isSoft (calculateHandValue hand) = true ->
  Z.of_nat (length hand) + 10 <= total (calculateHandValue hand).
Proof.
  intros Hwf Hsoft.
  destruct (calculateHandValue_demoted hand Hwf)
    as (k & Hk & Htot & _ & _ & Hs).
  rewrite Hs in Hsoft. apply bool_decide_eq_true_1 in Hsoft.
  pose proof (rawTotal_lower_bound hand).
  pose proof (countAces_le_length hand). lia.
Qed.

End Strategy.

(** C4. The auto-play decision is defined for every player hand and
    up-card and is the one of the decision table, rules in priority
    order: five cards and 21 - total >= 10, hit; total >= 21, stand; soft:
    hit up to 17, on 18 hit exactly against 9, 10 and ace, stand from 19;
    hard: hit up to 11, on 12 stand exactly against 4, 5, 6, on 13 to 16
    stand exactly against 2 to 6, stand from 17; the up-card counts ace
    as 11 and face cards as 10. *)
Theorem shouldAutoPlayHit_follows_table
    (playerHand : list Card) (dealerUpCard : Card) :
  shouldAutoPlayHit playerHand dealerUpCard (length playerHand)
  = strategyTable (total (calculateHandValue playerHand))
      (isSoft (calculateHandValue playerHand)) (length playerHand)
      (baseValue (rank dealerUpCard)).
Proof. apply shouldAutoPlayHit_table. Qed.

(** C9. The five-card rule never changes the decision: the policy equals
    the table without it, on every hand, up-card and card count.  A soft
    hand of five cards is worth at least 15, so a five-card hand that
    meets the rule's guard is hard with total at most 11, where the hard
    rule already hits. *)
Theorem five_card_rule_redundant
    (playerHand : list Card) (dealerUpCard : Card) (playerCardCount : nat) :
  shouldAutoPlayHit playerHand dealerUpCard playerCardCount
  = strategyTableWithoutFiveCardRule
      (total (calculateHandValue playerHand))
      (isSoft (calculateHandValue playerHand))
      (baseValue (rank dealerUpCard))
  /\ (Forall wellFormed playerHand -> length playerHand = 5%nat ->
      (isSoft (calculateHandValue playerHand) = true ->
       15 <= total (calculateHandValue playerHand)) /\
      (10 <= 21 - total (calculateHandValue playerHand) ->
       isSoft (calculateHandValue playerHand) = false /\
       total (calculateHandValue playerHand) <= 11 /\
       strategyTableWithoutFiveCardRule
         (total (calculateHandValue playerHand)) false
         (baseValue (rank dealerUpCard)) = true)).
Proof.
  split.
  - rewrite shouldAutoPlayHit_table. apply strategyTable_five_card_rule.
  - intros Hwf Hlen.
    assert (Hsoft : isSoft (calculateHandValue playerHand) = true ->
                    15 <= total (calculateHandValue playerHand)).
    { intros Hs. pose proof (soft_total_lower_bound _ Hwf Hs). lia. }
    split; [exact Hsoft|]. intros Hguard.
    assert (Hhard : isSoft (calculateHandValue playerHand) = false).
    { destruct (isSoft (calculateHandValue playerHand)); [|done].
      specialize (Hsoft eq_refl). lia. }
    split_and!; [done | lia |].
    unfold strategyTableWithoutFiveCardRule.
    destruct (Z.leb_spec 21 (total (calculateHandValue playerHand))); [lia|].
    destruct (Z.leb_spec (total (calculateHandValue playerHand)) 11);
      [done | lia].
Qed.

(** C9 at the hand 2, 2, 2, 2, 3 against a ten: five cards worth 11. *)
Lemma five_card_rule_redundant_witness :
  let hand := [makeCard hearts R2; makeCard diamonds R2; makeCard clubs R2;
               makeCard spades R2; makeCard hearts R3] in
  let up := makeCard spades R10 in
  (Forall wellFormed hand /\ length hand = 5%nat
   /\ 10 <= 21 - total (calculateHandValue hand))
  /\ shouldAutoPlayHit hand up 5 = true
  /\ isSoft (calculateHandValue hand) = false
  /\ total (calculateHandValue hand) <= 11.
Proof.
  intros hand up.
  assert (Hwf : Forall wellFormed hand) by (repeat constructor).
  assert (Hlen : length hand = 5%nat) by reflexivity.
  assert (Hguard : 10 <= 21 - total (calculateHandValue hand))
    by (vm_compute; discriminate).
  destruct (five_card_rule_redundant hand up 5) as [Heq Hrest].
  destruct (Hrest Hwf Hlen) as [_ Hg].
  destruct (Hg Hguard) as (Hhard & Hle & Hhit).
  split; [by split_and! |].
  split; [by rewrite Heq, Hhard |].
  by split.
Defined.

(** The decisions of the specification's test list. *)
Example hit_hard_16_against_10 :
  shouldAutoPlayHit [makeCard hearts R10; makeCard clubs R6]
    (makeCard spades RK) 2 = true.
Proof. reflexivity. Qed.

Example stand_hard_17_against_any (up : Card) :
  shouldAutoPlayHit [makeCard hearts R10; makeCard clubs R7] up 2 = false.
Proof. destruct up as [s r v]. by destruct r. Qed.

Example stand_soft_18_against_6 :
  shouldAutoPlayHit [makeCard hearts RA; makeCard clubs R7]
    (makeCard spades R6) 2 = false.
Proof. reflexivity. Qed.

Example hit_soft_18_against_10 :
  shouldAutoPlayHit [makeCard hearts RA; makeCard clubs R7]
    (makeCard spades R10) 2 = true.
Proof. reflexivity. Qed.

Example hit_five_cards_worth_11 (up : Card) :
  shouldAutoPlayHit
    [makeCard hearts R2; makeCard diamonds R2; makeCard clubs R2;
     makeCard spades R2; makeCard hearts R3] up 5 = true.
Proof. destruct up as [s r v]. by destruct r. Qed.

(** ** Settlement *)

Section Settlement.

(** What [determineWinner] leaves in the state, when the bankroll the
    queue runs on is the one the closure read. *)
Lemma determineWinner_state
    (c s : GameState) (ph dh : list Card) (wager : Z) :
  bankroll s = bankroll c ->
  let outcome := settle (total (calculateHandValue ph))
                   (total (calculateHandValue dh))
                   (length ph) (length dh) wager in
  exists msg : string,
    determineWinner c ph dh wager s
    = (setMessage msg >>> setLastHandResult outcome.1 >>>
       setGamePhase result >>>
       setBankroll (bankroll c + outcome.2)) s.
Proof.
  intros Hb. unfold determineWinner, settle.
  set (pv := total (calculateHandValue ph)).
  set (dv := total (calculateHandValue dh)).
  destruct (21 <? pv); [|destruct (21 <? dv);
    [|destruct ((length ph =? 6)%nat && (pv <=? 21));
      [|destruct ((length dh =? 6)%nat && (dv <? 17));
        [|destruct (dv <? pv); [|destruct (pv <? dv)]]]]];
    cbn beta iota zeta;
    match goal with
    | |- context [negb (?a =? ?b)] => destruct (Z.eqb_spec a b)
    end; cbn [fst snd negb];
    eexists; unfold_updates; cbn; f_equal; try reflexivity; lia.
Qed.

End Settlement.

Section DealerCharlie.




End DealerCharlie.

(** The outcome and the bankroll delta [determineWinner] leaves are those
    of [settle]. *)
Lemma determineWinner_settle
    (c : GameState) (ph dh : list Card) (wager : Z) :
  let s' := commit (fun c => determineWinner c ph dh wager) c in
  (lastHandResult s', bankroll s' - bankroll c)
  = settle (total (calculateHandValue ph)) (total (calculateHandValue dh))
      (length ph) (length dh) wager
  /\ gamePhase s' = result.
Proof.
  cbn zeta. unfold commit.
  destruct (determineWinner_state c c ph dh wager eq_refl) as [msg ->].
  unfold_updates. cbn [lastHandResult bankroll gamePhase].
  split; [|done].
  destruct (settle _ _ _ _ _) as [o d]. cbn [fst snd]. f_equal. lia.
Qed.

(** C2. For every pair of hands and every wager, [determineWinner] ends
    the round with the outcome and bankroll delta of the first matching
    rule: player over 21, loss, 0; dealer over 21, win, twice the wager;
    player holds six cards within 21, win, twice the wager; dealer holds
    six cards below 17, win, twice the wager; player's total higher, win,
    twice the wager; dealer's total higher, loss, 0; equal totals, push,
    the wager. *)
Theorem determineWinner_resolution_order
    (c : GameState) (playerHand dealerHand : list Card) (wager : Z) :
  let s' := commit (fun c => determineWinner c playerHand dealerHand wager) c in
  (lastHandResult s', bankroll s' - bankroll c)
  = settle (total (calculateHandValue playerHand))
      (total (calculateHandValue dealerHand))
      (length playerHand) (length dealerHand) wager
  /\ gamePhase s' = result.
Proof. apply determineWinner_settle. Qed.



(** The settlement cases of the specification's test list. *)
Example settle_twenty_beats_eighteen (c : GameState) (wager : Z) :
  let s' := commit (fun c => determineWinner c
                       [makeCard hearts R10; makeCard spades RK]
                       [makeCard hearts R9; makeCard spades R9] wager) c in
  lastHandResult s' = Win /\ bankroll s' = bankroll c + 2 * wager.
Proof.
  pose proof (determineWinner_settle c
                [makeCard hearts R10; makeCard spades RK]
                [makeCard hearts R9; makeCard spades R9] wager) as [H _].
  cbn zeta in *. injection H as H1 H2. split; [done | lia].
Qed.

Example settle_equal_totals_push (c : GameState) (wager : Z) :
  let s' := commit (fun c => determineWinner c
                       [makeCard hearts R10; makeCard spades R9]
                       [makeCard clubs R10; makeCard diamonds R9] wager) c in
  lastHandResult s' = Push /\ bankroll s' = bankroll c + wager.
Proof.
  pose proof (determineWinner_settle c
                [makeCard hearts R10; makeCard spades R9]
                [makeCard clubs R10; makeCard diamonds R9] wager) as [H _].
  cbn zeta in *. injection H as H1 H2. split; [done | lia].
Qed.

Example settle_player_bust (c : GameState) (wager : Z) :
  let s' := commit (fun c => determineWinner c
                       [makeCard hearts R10; makeCard spades R5;
                        makeCard clubs R7]
                       [makeCard clubs R10; makeCard diamonds R8] wager) c in
  lastHandResult s' = Loss /\ bankroll s' = bankroll c.
Proof.
  pose proof (determineWinner_settle c
                [makeCard hearts R10; makeCard spades R5; makeCard clubs R7]
                [makeCard clubs R10; makeCard diamonds R8] wager) as [H _].
  cbn zeta in *. injection H as H1 H2. split; [done | lia].
Qed.

Example settle_player_charlie_beats_21 (c : GameState) (wager : Z) :
  let s' := commit (fun c => determineWinner c
                       [makeCard hearts R2; makeCard spades R3;
                        makeCard clubs R4; makeCard hearts R5;
                        makeCard spades R2; makeCard clubs R4]
                       [makeCard clubs R10; makeCard diamonds R8;
                        makeCard spades R3] wager) c in
  lastHandResult s' = Win /\ bankroll s' = bankroll c + 2 * wager.
Proof.
  pose proof (determineWinner_settle c
                [makeCard hearts R2; makeCard spades R3;
                 makeCard clubs R4; makeCard hearts R5;
                 makeCard spades R2; makeCard clubs R4]
                [makeCard clubs R10; makeCard diamonds R8;
                 makeCard spades R3] wager) as [H _].
  cbn zeta in *. injection H as H1 H2. split; [done | lia].
Qed.


(** ** The deal *)

Section Deal.

Lemma swap_length (i j : nat) (d : list Card) :
  length (swap i j d) = length d.
Proof.
  unfold swap. destruct (d !! i), (d !! j); try done.
  by rewrite !length_insert.
Qed.

Lemma shuffleFrom_length (rnd : nat -> nat) (i : nat) :
  forall d : list Card, length (shuffleFrom rnd i d) = length d.
Proof.
  induction i as [|i IH]; intros d; cbn; [done|].
  by rewrite IH, swap_length.
Qed.

Lemma shuffleDeck_length (rnd : nat -> nat) (d : list Card) :
  length (shuffleDeck rnd d) = length d.
Proof. apply shuffleFrom_length. Qed.

(** [pop] takes the last element off. *)
Lemma pop_snoc (d : list Card) (c : Card) : pop (d ++ [c]) = Some (c, d).
Proof. unfold pop. by rewrite reverse_snoc, reverse_involutive. Qed.

Lemma pop_nil : pop [] = None.
Proof. reflexivity. Qed.

Lemma pop_Some (d : list Card) :
  (0 < length d)%nat ->
  exists c d', pop d = Some (c, d') /\ d = d' ++ [c].
Proof.
  destruct d as [|c d _] using rev_ind; cbn; [lia|].
  intros _. exists c, d. by rewrite pop_snoc.
Qed.

Lemma pop_None (d : list Card) : pop d = None -> d = [].
Proof.
  destruct d as [|c d _] using rev_ind; [done|].
  by rewrite pop_snoc.
Qed.

Lemma dealCards_Some (d : list Card) :
  (4 <= length d)%nat ->
  exists p1 p2 q1 q2 rest,
    dealCards d = Some ([p1; p2], [q1; q2], rest)
    /\ d = rest ++ [q2; q1; p2; p1].
Proof.
  intros Hlen.
  destruct (pop_Some d) as (p1 & d1 & _ & ->); [lia|].
  rewrite length_app in Hlen. cbn in Hlen.
  destruct (pop_Some d1) as (p2 & d2 & _ & ->); [lia|].
  rewrite length_app in Hlen. cbn in Hlen.
  destruct (pop_Some d2) as (q1 & d3 & _ & ->); [lia|].
  rewrite length_app in Hlen. cbn in Hlen.
  destruct (pop_Some d3) as (q2 & d4 & _ & ->); [lia|].
  exists p1, p2, q1, q2, d4. split; [|by rewrite <- !app_assoc].
  unfold dealCards. by repeat (rewrite pop_snoc; cbn).
Qed.

(** The deal never runs out of cards: a shuffled fresh deck gives two
    cards to each side and keeps 48. *)
Lemma dealCards_shuffled (rnd : nat -> nat) :
  exists p1 p2 q1 q2 rest,
    dealCards (shuffleDeck rnd createDeck) = Some ([p1; p2], [q1; q2], rest)
    /\ length rest = 48%nat.
Proof.
  destruct (dealCards_Some (shuffleDeck rnd createDeck))
    as (p1 & p2 & q1 & q2 & rest & Heq & Hd).
  { rewrite shuffleDeck_length. cbn. lia. }
  exists p1, p2, q1, q2, rest. split; [done|].
  apply (f_equal length) in Hd.
  rewrite shuffleDeck_length, length_app in Hd. cbn in Hd. lia.
Qed.

(** A rejected deal queues at most a message and the switching off of
    auto-play. *)
Lemma dealHand_rejected (rnd : nat -> nat) (c : GameState) :
  bankroll c < betAmount c ->
  dealHand rnd c
  = if isPhase (gamePhase c) betting || isPhase (gamePhase c) result
    then setMessage "Not enough money to place this bet!" >>>
         (if autoPlayMode c then setAutoPlayMode false else skip)
    else skip.
Proof.
  intros Hlt. unfold dealHand.
  destruct (Z.ltb_spec (bankroll c) (betAmount c)); [|lia].
  by destruct (gamePhase c).
Qed.

(** An accepted deal, by the naturals it finds. *)
Lemma dealHand_accepted (rnd : nat -> nat) (c : GameState) :
  gamePhase c = betting \/ gamePhase c = result ->
  betAmount c <= bankroll c ->
  exists p1 p2 q1 q2 rest,
    dealCards (shuffleDeck rnd createDeck) = Some ([p1; p2], [q1; q2], rest)
    /\ length rest = 48%nat
    /\ let playerVal := total (calculateHandValue [p1; p2]) in
       let dealerVal := total (calculateHandValue [q1; q2]) in
       let s' := commit (dealHand rnd) c in
       playerHand s' = [p1; p2] /\ dealerHand s' = [q1; q2]
       /\ deck s' = rest
       /\ throughput s' = throughput c + betAmount c
       /\ betAmount s' = betAmount c
       /\ autoPlayMode s' = autoPlayMode c
       /\ (gamePhase s', lastHandResult s', bankroll s')
          = if playerVal =? 21 then
              if dealerVal =? 21 then (result, Loss, bankroll c)
              else (result, Win, bankroll c + betAmount c)
            else
              if dealerVal =? 21
              then (result, Loss, bankroll c - betAmount c)
              else (playerTurn, NoResult, bankroll c - betAmount c).
Proof.
  intros Hp Hb.
  destruct (dealCards_shuffled rnd) as (p1 & p2 & q1 & q2 & rest & Hd & Hl).
  exists p1, p2, q1, q2, rest. split; [done|]. split; [done|].
  cbn zeta. unfold commit, dealHand. rewrite Hd.
  destruct (Z.ltb_spec (bankroll c) (betAmount c)); [lia|].
  assert (negb (isPhase (gamePhase c) betting)
          && negb (isPhase (gamePhase c) result) = false) as ->
    by (destruct Hp as [-> | ->]; reflexivity).
  cbn [length Nat.eqb andb].
  rewrite !andb_true_r.
  destruct (total (calculateHandValue [p1; p2]) =? 21),
           (total (calculateHandValue [q1; q2]) =? 21);
    simpl_updates; split_and!; try done; f_equal; lia.
Qed.

End Deal.

(** C1 on the code.  With the ace and king of spades dealt to the player
    and the ace of clubs and jack of spades to the dealer, both hands are
    naturals; the deal ends in the result phase with the wager returned,
    but the outcome it leaves is a loss under the message of a dealer
    blackjack: the branch for a dealer natural runs after, not instead
    of, the branch for two naturals. *)
Theorem dealHand_both_naturals_recorded_as_loss :
  let s' := commit (dealHand bothNaturals) initialState in
  playerHand s' = [makeCard spades RA; makeCard spades RK]
  /\ dealerHand s' = [makeCard clubs RA; makeCard spades RJ]
  /\ total (calculateHandValue (playerHand s')) = 21
  /\ total (calculateHandValue (dealerHand s')) = 21
  /\ gamePhase s' = result
  /\ bankroll s' = bankroll initialState
  /\ lastHandResult s' = Loss
  /\ message s' = "Dealer has Blackjack! You lose.".
Proof. vm_compute. split_and!; reflexivity. Qed.

(** The other half of C1 holds on every deal: a natural of the player
    alone is a win paid 1:1, and two naturals return the wager. *)
Lemma dealHand_naturals (rnd : nat -> nat) (c : GameState) :
  gamePhase c = betting \/ gamePhase c = result ->
  betAmount c <= bankroll c ->
  let s' := commit (dealHand rnd) c in
  total (calculateHandValue (playerHand s')) = 21 ->
  gamePhase s' = result
  /\ if total (calculateHandValue (dealerHand s')) =? 21
     then lastHandResult s' = Loss /\ bankroll s' = bankroll c
     else lastHandResult s' = Win
          /\ bankroll s' = bankroll c - betAmount c + 2 * betAmount c.
Proof.
  intros Hp Hb.
  destruct (dealHand_accepted rnd c Hp Hb)
    as (p1 & p2 & q1 & q2 & rest & _ & _ & H).
  cbn zeta in *. destruct H as (-> & -> & _ & _ & _ & _ & H).
  intros Hpv. rewrite Hpv in H. cbn [Z.eqb Pos.eqb] in H.
  destruct (total (calculateHandValue [q1; q2]) =? 21);
    injection H as -> -> ->; split_and!; try done; lia.
Qed.

(** C6. A deal asked for while the bankroll is below the wager changes
    neither bankroll, throughput, deck, hands nor phase; from the betting
    or result phase it leaves auto-play disengaged.  So the auto-play
    effect, in the betting phase with too small a bankroll, deals nothing,
    switches auto-play off, and does nothing from then on. *)
Theorem dealHand_insufficient_funds (rnd : nat -> nat) (c : GameState) :
  bankroll c < betAmount c ->
  let s' := commit (dealHand rnd) c in
  (bankroll s' = bankroll c /\ throughput s' = throughput c
   /\ deck s' = deck c /\ playerHand s' = playerHand c
   /\ dealerHand s' = dealerHand c /\ gamePhase s' = gamePhase c
   /\ betAmount s' = betAmount c)
  /\ (gamePhase c = betting \/ gamePhase c = result ->
      autoPlayMode s' = false
      /\ message s' = "Not enough money to place this bet!")
  /\ (gamePhase c = betting ->
      forall rnd' : nat -> nat,
        let a := step (RunAutoPlayEffect rnd') c in
        bankroll a = bankroll c /\ throughput a = throughput c
        /\ deck a = deck c /\ playerHand a = playerHand c
        /\ dealerHand a = dealerHand c /\ gamePhase a = betting
        /\ autoPlayMode a = false
        /\ forall rnd'' : nat -> nat, step (RunAutoPlayEffect rnd'') a = a).
Proof.
  intros Hlt s'. subst s'. unfold commit.
  rewrite (dealHand_rejected rnd c Hlt). split_and!.
  1-7: by destruct (gamePhase c) eqn:Hp, (autoPlayMode c);
    cbn [isPhase orb]; simpl_updates.
  - by intros [-> | ->]; destruct (autoPlayMode c) eqn:Ha;
      cbn [isPhase orb]; simpl_updates.
  - intros Hp rnd'. unfold step, commit, autoPlayEffect.
    destruct (autoPlayMode c) eqn:Ha; cbn [negb].
    + rewrite Hp, (dealHand_rejected rnd' c Hlt), Hp, Ha.
      cbn [isPhase orb]. simpl_updates. by split_and!.
    + unfold skip. rewrite Hp, Ha. split_and!; try done.
Qed.

(** C6 at [shortOfFundsState]: bankroll 5, wager 10, auto-play engaged. *)
Lemma dealHand_insufficient_funds_witness :
  bankroll shortOfFundsState < betAmount shortOfFundsState
  /\ bankroll (commit (dealHand keepOrder) shortOfFundsState) = 5
  /\ throughput (commit (dealHand keepOrder) shortOfFundsState) = 1200
  /\ gamePhase (commit (dealHand keepOrder) shortOfFundsState) = betting
  /\ autoPlayMode (commit (dealHand keepOrder) shortOfFundsState) = false.
Proof.
  assert (Hlt : bankroll shortOfFundsState < betAmount shortOfFundsState)
    by reflexivity.
  destruct (dealHand_insufficient_funds keepOrder shortOfFundsState Hlt)
    as ((Hb & Ht & _ & _ & _ & Hp & _) & Hauto & _).
  destruct (Hauto (or_introl eq_refl)) as [Ha _].
  split; [exact Hlt |].
  split; [exact Hb |].
  split; [exact Ht |].
  split; [exact Hp | exact Ha].
Defined.

(** ** The dealer's turn *)

Section DealerLoop.

Lemma dealerShouldDraw_iff (h : list Card) :
  dealerShouldDraw h = true
  <-> total (calculateHandValue h) < 17 /\ (length h < 6)%nat.
Proof.
  unfold dealerShouldDraw. rewrite andb_true_iff, Z.ltb_lt, Nat.ltb_lt.
  done.
Qed.

Lemma dealerLoop_stop (h stack : list Card) (q : Update) :
  dealerShouldDraw h = false -> dealerLoop h stack q = (h, stack, q).
Proof. intros Hg. destruct stack; cbn; by rewrite Hg. Qed.

Lemma dealerLoop_draw (h rest : list Card) (newCard : Card) (q : Update) :
  dealerShouldDraw h = true ->
  dealerLoop h (newCard :: rest) q
  = dealerLoop (h ++ [newCard]) rest
      (q >>> setDealerHand (h ++ [newCard]) >>> setDeck (reverse rest)).
Proof. intros Hg. cbn. by rewrite Hg. Qed.

(** The loop as a whole: it takes the top [n] cards of the stack, the
    guard held before each draw, and it ends because the guard fails or
    the stack is used up. *)
Lemma dealerLoop_spec (stack : list Card) :
  forall (h : list Card) (q : Update),
  exists n : nat,
    (n <= length stack)%nat
    /\ (dealerLoop h stack q).1.1 = h ++ take n stack
    /\ (dealerLoop h stack q).1.2 = drop n stack
    /\ (forall j : nat, (j < n)%nat ->
                        dealerShouldDraw (h ++ take j stack) = true)
    /\ (dealerShouldDraw (h ++ take n stack) = false
        \/ n = length stack).
Proof.
  induction stack as [|c stack IH]; intros h q.
  - exists O. cbn. rewrite app_nil_r.
    destruct (dealerShouldDraw h); cbn; split_and!; auto; lia.
  - destruct (dealerShouldDraw h) eqn:Hg.
    + rewrite (dealerLoop_draw _ _ _ _ Hg).
      destruct (IH (h ++ [c])
                  (q >>> setDealerHand (h ++ [c]) >>> setDeck (reverse stack)))
        as (n & Hn & Hh & Hr & Hall & Hend).
      rewrite <- !app_assoc in *. cbn [app] in *.
      exists (S n). cbn [take drop length]. split_and!; try done; try lia.
      * intros [|j] Hj; cbn [take].
        -- by rewrite app_nil_r.
        -- specialize (Hall j ltac:(lia)).
           by rewrite <- app_assoc in Hall.
      * destruct Hend as [Hend | ->]; [by left | by right].
    + rewrite (dealerLoop_stop _ _ _ Hg). exists O. cbn [take drop fst snd].
      rewrite app_nil_r. split_and!; auto; lia.
Qed.

(** What the loop has queued when it ends: the final hand, the deck
    without the drawn cards, and possibly a message. *)
Lemma dealerLoop_queue (stack : list Card) :
  forall (h : list Card) (q : Update) (s : GameState),
    dealerHand (q s) = h ->
    deck (q s) = reverse stack ->
    exists m : string,
      (dealerLoop h stack q).2 s
      = (setDealerHand (dealerLoop h stack q).1.1 >>>
         setDeck (reverse (dealerLoop h stack q).1.2) >>>
         setMessage m) (q s).
Proof.
  induction stack as [|c stack IH]; intros h q s Hh Hd.
  - cbn [dealerLoop]. destruct (dealerShouldDraw h); cbn [fst snd].
    + eexists. unfold_updates. cbn. rewrite Hh, Hd. reflexivity.
    + exists (message (q s)). unfold_updates.
      destruct (q s); cbn in *. by subst.
  - destruct (dealerShouldDraw h) eqn:Hg.
    + rewrite (dealerLoop_draw _ _ _ _ Hg).
      destruct (IH (h ++ [c])
                  (q >>> setDealerHand (h ++ [c]) >>> setDeck (reverse stack))
                  s eq_refl eq_refl) as [m ->].
      exists m. unfold_updates. reflexivity.
    + rewrite (dealerLoop_stop _ _ _ Hg). cbn [fst snd].
      exists (message (q s)). unfold_updates.
      destruct (q s); cbn in *. by subst.
Qed.

(** The cards after [dealerPlay]: the loop's hand and what is left of
    its stack. *)
Lemma dealerPlay_cards (c : GameState) :
  deck (commit dealerPlay c)
  = reverse (dealerLoop (dealerHand c) (reverse (deck c)) skip).1.2
  /\ playerHand (commit dealerPlay c) = playerHand c
  /\ dealerHand (commit dealerPlay c)
     = (dealerLoop (dealerHand c) (reverse (deck c)) skip).1.1.
Proof.
  unfold commit, dealerPlay.
  destruct (dealerLoop_queue (reverse (deck c)) (dealerHand c) skip c
              eq_refl) as [m Hq]; [by rewrite reverse_involutive|].
  destruct (dealerLoop (dealerHand c) (reverse (deck c)) skip)
    as [[h rest] q]. cbn [fst snd] in *.
  rewrite !andThen_apply, Hq.
  destruct (_ && _); [by unfold dealerCharlie; simpl_updates|].
  unfold determineWinner.
  destruct (if 21 <? _ then _ else _) as [[msg r] b].
  destruct (negb _); by simpl_updates.
Qed.

(** The dealer hand [dealerPlay] leaves is the one its loop ended
    with. *)
Lemma dealerPlay_dealerHand (c : GameState) :
  dealerHand (commit dealerPlay c)
  = (dealerLoop (dealerHand c) (reverse (deck c)) skip).1.1.
Proof. apply dealerPlay_cards. Qed.

End DealerLoop.



(** ** The round state machine *)

Section Bankroll.








Lemma run_snoc (es : list Event) (e : Event) (s : GameState) :
  run (es ++ [e]) s = step e (run es s).
Proof. unfold run. by rewrite foldl_app. Qed.


End Bankroll.




(** ** The cards in play *)

Section Round.

Lemma swap_wellFormed (i j : nat) (d : list Card) :
  Forall wellFormed d -> Forall wellFormed (swap i j d).
Proof.
  intros Hd. unfold swap.
  destruct (d !! i) as [ci|] eqn:Hi; [|done].
  destruct (d !! j) as [cj|] eqn:Hj; [|done].
  apply Forall_insert; [apply Forall_insert; [done|] |].
  - by apply (Forall_lookup_1 _ _ _ _ Hd Hj).
  - by apply (Forall_lookup_1 _ _ _ _ Hd Hi).
Qed.

Lemma shuffleDeck_wellFormed (rnd : nat -> nat) :
  Forall wellFormed (shuffleDeck rnd createDeck).
Proof.
  unfold shuffleDeck. generalize (length createDeck - 1)%nat.
  generalize createDeck_wellFormed. generalize createDeck.
  intros d Hd n. revert d Hd.
  induction n as [|n IH]; intros d Hd; cbn; [done|].
  by apply IH, swap_wellFormed.
Qed.

(** Two cards never bust: a pair of aces is worth 12. *)
Lemma two_cards_at_most_21 (c1 c2 : Card) :
  wellFormed c1 -> wellFormed c2 ->
  total (calculateHandValue [c1; c2]) <= 21.
Proof.
  destruct c1 as [s1 r1 v1], c2 as [s2 r2 v2]. unfold wellFormed. cbn.
  intros -> ->. destruct r1, r2; vm_compute; discriminate.
Qed.

Lemma pop_length (d d' : list Card) (c : Card) :
  pop d = Some (c, d') -> length d = S (length d').
Proof.
  destruct d as [|x d _] using rev_ind; [done|].
  rewrite pop_snoc. intros [= <- <-]. rewrite length_app. cbn. lia.
Qed.

Lemma dealHand_round (rnd : nat -> nat) (c s : GameState) :
  roundInvariant s -> gamePhase s = gamePhase c ->
  roundInvariant (dealHand rnd c s).
Proof.
  intros Hinv Hp. unfold dealHand.
  destruct (negb _ && negb _) eqn:Hguard; [done|].
  assert (Hidle : gamePhase s = betting \/ gamePhase s = result).
  { rewrite Hp. by destruct (gamePhase c); auto. }
  destruct (_ <? _).
  { unfold roundInvariant in *.
    destruct (autoPlayMode c); simpl_updates; by destruct Hidle as [-> | ->]. }
  destruct (dealCards_Some (shuffleDeck rnd createDeck))
    as (p1 & p2 & q1 & q2 & rest & -> & Hd).
  { rewrite shuffleDeck_length. cbn. lia. }
  pose proof (shuffleDeck_wellFormed rnd) as Hwf. rewrite Hd in Hwf.
  apply Forall_app in Hwf as [_ Hwf].
  apply Forall_cons in Hwf as [_ Hwf]. apply Forall_cons in Hwf as [_ Hwf].
  apply Forall_cons in Hwf as [Hp2 Hwf]. apply Forall_cons in Hwf as [Hp1 _].
  apply (f_equal length) in Hd.
  rewrite shuffleDeck_length, length_app in Hd. cbn in Hd.
  pose proof (two_cards_at_most_21 p1 p2 Hp1 Hp2).
  unfold roundInvariant.
  repeat match goal with
         | |- context [if ?b then _ else _] => destruct b
         end; simpl_updates; cbn [length]; try done.
  split_and!; try done; lia.
Qed.

Lemma hitPlayer_round (c s : GameState) :
  roundInvariant s -> gamePhase s = gamePhase c ->
  playerHand s = playerHand c -> dealerHand s = dealerHand c ->
  deck s = deck c ->
  roundInvariant (hitPlayer c s).
Proof.
  intros Hinv Hp Hph Hdh Hd. unfold hitPlayer.
  destruct (negb _ && negb _) eqn:Hguard; [done|].
  assert (Hturn : gamePhase s = playerTurn).
  { rewrite Hp. unfold roundInvariant in Hinv. rewrite Hp in Hinv.
    by destruct (gamePhase c). }
  unfold roundInvariant in *. rewrite Hturn in Hinv.
  destruct Hinv as (Hdl & Hpl & Hsum & Htot).
  destruct (pop (deck c)) as [[card newDeck]|] eqn:Hpop.
  - apply pop_length in Hpop. rewrite <- Hd in Hpop.
    set (newHand := playerHand c ++ [card]).
    assert (Hlen : length newHand = S (length (playerHand s))).
    { unfold newHand. rewrite length_app, Hph. cbn. lia. }
    destruct (Nat.eqb_spec (length newHand) 6) as [Hsix|Hsix];
      destruct (Z.leb_spec (total (calculateHandValue newHand)) 21);
      destruct (Z.ltb_spec 21 (total (calculateHandValue newHand)));
      cbn [andb]; try lia; try by simpl_updates.
    destruct (negb (autoPlayMode c)); simpl_updates; rewrite Hturn;
      split_and!; try done; lia.
  - destruct (autoPlayMode c); simpl_updates; by rewrite Hturn.
Qed.

Lemma standPlayer_round (c s : GameState) :
  roundInvariant s -> gamePhase s = gamePhase c ->
  roundInvariant (standPlayer c s).
Proof.
  intros Hinv Hp. unfold standPlayer.
  destruct (negb _ && negb _) eqn:Hguard; [done|].
  assert (Hturn : gamePhase s = playerTurn).
  { rewrite Hp. unfold roundInvariant in Hinv. rewrite Hp in Hinv.
    by destruct (gamePhase c). }
  unfold roundInvariant in *. rewrite Hturn in Hinv. by simpl_updates.
Qed.

(** [dealerPlay] always ends the round. *)
Lemma dealerPlay_gamePhase (c : GameState) :
  gamePhase (commit dealerPlay c) = result.
Proof.
  unfold commit, dealerPlay.
  destruct (dealerLoop (dealerHand c) (reverse (deck c)) skip)
    as [[h rest] q].
  rewrite !andThen_apply. generalize (q c). intros s.
  destruct (_ && _); [by unfold dealerCharlie; simpl_updates|].
  unfold determineWinner.
  destruct (if 21 <? _ then _ else _) as [[m r] b].
  destruct (negb _); by simpl_updates.
Qed.

Lemma autoPlayPlayerTurnAction_round (c : GameState) :
  roundInvariant c ->
  forall m : string,
    roundInvariant (autoPlayPlayerTurnAction c (setMessage m c)).
Proof.
  intros Hinv m. unfold autoPlayPlayerTurnAction.
  destruct (_ || _); [done|].
  destruct (_ <? _); [done|].
  destruct (_ && _); [done|].
  destruct (dealerHand c !! 0%nat) as [up|]; [|done].
  destruct (shouldAutoPlayHit _ _ _); rewrite andThen_apply.
  - by apply hitPlayer_round.
  - by apply standPlayer_round.
Qed.

Lemma step_round (e : Event) (s : GameState) :
  roundInvariant s -> roundInvariant (step e s).
Proof.
  intros Hinv. destruct e as [rnd| | | | |amount| | |rnd|]; cbn [step].
  - destruct (_ || _); [done|]. by apply dealHand_round.
  - destruct (_ && _); [done|]. by apply hitPlayer_round.
  - destruct (_ && _); [done|]. by apply standPlayer_round.
  - unfold toggleAutoPlay. by destruct (autoPlayMode s).
  - by destruct (autoPlayMode s).
  - by destruct (_ || _).
  - unfold commit, dealerTurnEffect.
    destruct (isPhase _ _); [|done].
    unfold roundInvariant.
    by rewrite (dealerPlay_gamePhase s : gamePhase (dealerPlay s s) = result).
  - done.
  - unfold commit, autoPlayEffect.
    destruct (negb _); [done|].
    destruct (gamePhase s) eqn:Hp; rewrite ?andThen_apply.
    + apply dealHand_round; [|by simpl_updates].
      unfold roundInvariant. simpl_updates. by rewrite Hp.
    + by apply autoPlayPlayerTurnAction_round.
    + unfold roundInvariant in *. simpl_updates. by rewrite Hp in *.
    + done.
    + done.
  - unfold commit, manualResultEffect. by destruct (_ && _).
Qed.

Lemma run_round (es : list Event) : roundInvariant (run es initialState).
Proof.
  induction es as [|e es IH] using rev_ind; [done|].
  rewrite run_snoc. by apply step_round.
Qed.

End Round.

(** In a state the machine reaches, a hit always finds a card, and the
    dealer's loop never finds the deck empty: it ends because the dealer
    has 17 or more or holds six cards. *)
Theorem deck_never_exhausted (es : list Event) :
  let s := run es initialState in
  (gamePhase s = playerTurn ->
   (45 <= length (deck s))%nat /\ pop (deck s) <> None)
  /\ (gamePhase s = dealerTurn ->
      (45 <= length (deck s))%nat
      /\ dealerShouldDraw (dealerHand (commit dealerPlay s)) = false
      /\ (length (dealerHand (commit dealerPlay s)) <= 6)%nat).
Proof.
  intros s. pose proof (run_round es) as Hinv. fold s in Hinv.
  unfold roundInvariant in Hinv. split; intros Hp; rewrite Hp in Hinv;
    destruct Hinv as (Hdl & Hpl & Hsum & _).
  - split; [lia|]. intros Hnone. apply pop_None in Hnone.
    rewrite Hnone in Hsum. cbn in Hsum. lia.
  - split; [lia|]. rewrite dealerPlay_dealerHand.
    destruct (dealerLoop_spec (reverse (deck s)) (dealerHand s) skip)
      as (n & Hn & -> & _ & Hall & Hend).
    rewrite length_reverse in *.
    assert (Hfour : (n <= 4)%nat).
    { destruct n as [|n]; [lia|].
      specialize (Hall n ltac:(lia)). apply dealerShouldDraw_iff in Hall.
      destruct Hall as [_ Hl].
      rewrite length_app, length_take, length_reverse in Hl. lia. }
    split.
    + destruct Hend as [Hend | ->]; [done | lia].
    + rewrite length_app, length_take, length_reverse. lia.
Qed.

(** Both phases after the first deal and after standing on it: a card is
    there to hit, and the dealer stops on its 20. *)
Lemma deck_never_exhausted_witness :
  (gamePhase (run [ClickDeal plainDeal] initialState) = playerTurn
   /\ pop (deck (run [ClickDeal plainDeal] initialState)) <> None)
  /\ (gamePhase (run [ClickDeal plainDeal; ClickStand] initialState)
      = dealerTurn
      /\ dealerShouldDraw
           (dealerHand (commit dealerPlay
                          (run [ClickDeal plainDeal; ClickStand]
                               initialState))) = false).
Proof.
  assert (H1 : gamePhase (run [ClickDeal plainDeal] initialState) = playerTurn)
    by (vm_compute; reflexivity).
  assert (H2 : gamePhase (run [ClickDeal plainDeal; ClickStand] initialState)
               = dealerTurn) by (vm_compute; reflexivity).
  destruct (deck_never_exhausted [ClickDeal plainDeal]) as [Hplayer _].
  destruct (deck_never_exhausted [ClickDeal plainDeal; ClickStand])
    as [_ Hdealer].
  destruct (Hplayer H1) as [_ Hpop]. destruct (Hdealer H2) as (_ & Hstop & _).
  split; [split; [exact H1 | exact Hpop] | split; [exact H2 | exact Hstop]].
Defined.



(** The evaluator's total is never negative, and a hand without an ace
    is hard. *)
Theorem calculateHandValue_nonneg_and_hard (hand : list Card) :
  Forall wellFormed hand ->
  0 <= total (calculateHandValue hand)
  /\ (countAces hand = 0%nat -> isSoft (calculateHandValue hand) = false).
Proof.
  intros Hwf.
  destruct (calculateHandValue_demoted hand Hwf)
    as (k & Hk & Htot & _ & _ & Hs).
  pose proof (rawTotal_lower_bound hand).
  pose proof (countAces_le_length hand).
  split; [lia|]. intros Hzero. rewrite Hs.
  apply bool_decide_eq_false_2. lia.
Qed.

Lemma calculateHandValue_nonneg_and_hard_witness :
  let hand := [makeCard hearts R10; makeCard clubs R7] in
  Forall wellFormed hand
  /\ 0 <= total (calculateHandValue hand)
  /\ isSoft (calculateHandValue hand) = false.
Proof.
  intros hand.
  assert (Hwf : Forall wellFormed hand) by (repeat constructor).
  destruct (calculateHandValue_nonneg_and_hard hand Hwf) as [Hpos Hhard].
  split; [exact Hwf |]. split; [exact Hpos | exact (Hhard eq_refl)].
Defined.

Lemma createDeck_NoDup : NoDup createDeck.
Proof. apply (bool_decide_unpack _). vm_compute. exact I. Qed.

(** [createDeck] holds 52 cards, no card twice, and exactly one card of
    each suit and rank, with the value of its rank. *)
Theorem createDeck_complete :
  length createDeck = 52%nat
  /\ NoDup createDeck
  /\ (forall (s : Suit) (r : Rank), makeCard s r ∈ createDeck)
  /\ (forall c : Card, c ∈ createDeck -> c = makeCard (suit c) (rank c)).
Proof.
  split_and!.
  - reflexivity.
  - apply createDeck_NoDup.
  - intros s r. apply (bool_decide_unpack _).
    destruct s, r; vm_compute; exact I.
  - intros c Hc. pose proof createDeck_wellFormed as Hwf.
    rewrite Forall_forall in Hwf. specialize (Hwf c Hc).
    destruct c as [s r v]. unfold wellFormed in Hwf. cbn in *. by subst.
Qed.

Lemma shuffleFrom_Permutation (rnd : nat -> nat) (n : nat) :
  forall d : list Card, shuffleFrom rnd n d ≡ₚ d.
Proof.
  induction n as [|n IH]; intros d; cbn [shuffleFrom]; [reflexivity|].
  rewrite IH. unfold swap.
  destruct (d !! S n) as [ci|] eqn:Hi; [|reflexivity].
  destruct (d !! (rnd (S n) mod S (S n))%nat) as [cj|] eqn:Hj;
    [|reflexivity].
  by apply Permutation_insert_swap.
Qed.

Lemma shuffleDeck_perm (rnd : nat -> nat) (d : list Card) :
  shuffleDeck rnd d ≡ₚ d.
Proof. apply shuffleFrom_Permutation. Qed.

(** The shuffle permutes the deck, whatever the random choices: no card
    is lost and none is duplicated. *)
Theorem shuffleDeck_Permutation (rnd : nat -> nat) (d : list Card) :
  shuffleDeck rnd d ≡ₚ d /\ length (shuffleDeck rnd d) = length d.
Proof. split; [apply shuffleDeck_perm | apply shuffleDeck_length]. Qed.

(** The round of the specification's end-to-end test: with bankroll 1000
    and wager 10 the deal debits to 990; the player stands on 20 against
    the dealer's 19 and is paid 20, which leaves 1010, throughput 10 and
    one point. *)
Example one_winning_round :
  let dealt := run [ClickDeal winningDeal; RunPointsEffect] initialState in
  let settled := run [ClickStand; RunDealerTurnEffect; RunPointsEffect;
                      RunManualResultEffect] dealt in
  bankroll dealt = 990 /\ gamePhase dealt = playerTurn
  /\ lastHandResult settled = Win /\ bankroll settled = 1010
  /\ throughput settled = 10 /\ points settled = 1
  /\ gamePhase settled = betting.
Proof. vm_compute. split_and!; reflexivity. Qed.

(** ** Conservation of the cards *)

Section Conservation.

Lemma pop_inv (d d' : list Card) (c : Card) :
  pop d = Some (c, d') -> d = d' ++ [c].
Proof.
  destruct d as [|x d _] using rev_ind; [done|].
  rewrite pop_snoc. by intros [= <- <-].
Qed.

Lemma dealHand_conserved (rnd : nat -> nat) (c s : GameState) :
  conserved s -> conserved (dealHand rnd c s).
Proof.
  intros Hs. unfold dealHand.
  destruct (negb _ && negb _); [exact Hs|].
  destruct (_ <? _); [destruct (autoPlayMode c); exact Hs|].
  destruct (dealCards_Some (shuffleDeck rnd createDeck))
    as (p1 & p2 & q1 & q2 & rest & -> & Hd).
  { rewrite shuffleDeck_length. cbn. lia. }
  right. rewrite <- (shuffleDeck_perm rnd createDeck), Hd.
  unfold cardsInPlay.
  repeat match goal with
         | |- context [if ?b then _ else _] => destruct b
         end; simpl_updates; apply Permutation_app_head;
    change ([p1; p2] ++ [q1; q2]) with (reverse [q2; q1; p2; p1]);
    apply reverse_Permutation.
Qed.

Lemma hitPlayer_conserved (c s : GameState) :
  conserved s -> deck s = deck c -> playerHand s = playerHand c ->
  conserved (hitPlayer c s).
Proof.
  intros Hs Hd Hph. unfold hitPlayer.
  destruct (negb _ && negb _); [exact Hs|].
  destruct (pop (deck c)) as [[card newDeck]|] eqn:Hpop;
    [|destruct (autoPlayMode c); exact Hs].
  apply pop_inv in Hpop.
  assert (Hnew : newDeck ++ (playerHand c ++ [card]) ++ dealerHand s
                 ≡ₚ cardsInPlay s).
  { unfold cardsInPlay. rewrite Hd, Hph, Hpop, <- !app_assoc.
    apply Permutation_app_head. symmetry.
    apply (Permutation_middle (playerHand c) (dealerHand s) card). }
  assert (Hgoal : conserved (setPlayerHand (playerHand c ++ [card])
                               (setDeck newDeck s))).
  { right. destruct Hs as [Hs | Hs].
    - unfold cardsInPlay in Hs. rewrite Hd, Hpop in Hs.
      by destruct newDeck.
    - unfold cardsInPlay at 1. simpl_updates. by rewrite Hnew. }
  repeat match goal with
         | |- context [if ?b then _ else _] => destruct b
         end; exact Hgoal.
Qed.

Lemma dealerPlay_conserved (c : GameState) :
  conserved c -> conserved (commit dealerPlay c).
Proof.
  intros Hc.
  assert (Hsame : cardsInPlay (commit dealerPlay c) ≡ₚ cardsInPlay c).
  { unfold cardsInPlay.
    destruct (dealerPlay_cards c) as (-> & -> & ->).
    destruct (dealerLoop_spec (reverse (deck c)) (dealerHand c) skip)
      as (n & _ & -> & -> & _).
    rewrite <- (reverse_involutive (deck c)) at 3.
    rewrite <- (take_drop n (reverse (deck c))) at 3.
    rewrite reverse_app, <- app_assoc. apply Permutation_app_head.
    rewrite (reverse_Permutation (take n (reverse (deck c)))),
      (assoc_L (++) (playerHand c)).
    apply Permutation_app_comm. }
  destruct Hc as [Hc | Hc]; [left | right; by rewrite Hsame].
  rewrite Hc in Hsame. by apply Permutation_nil_r in Hsame.
Qed.

Lemma step_conserved (e : Event) (s : GameState) :
  conserved s -> conserved (step e s).
Proof.
  intros Hs. destruct e as [rnd| | | | |amount| | |rnd|]; cbn [step].
  - destruct (_ || _); [done|]. by apply dealHand_conserved.
  - destruct (_ && _); [done|]. by apply hitPlayer_conserved.
  - destruct (_ && _); [done|]. unfold commit, standPlayer.
    by destruct (_ && _).
  - unfold toggleAutoPlay. by destruct (autoPlayMode s).
  - destruct (autoPlayMode s); [done|]. by left.
  - by destruct (_ || _).
  - unfold commit, dealerTurnEffect.
    destruct (isPhase _ _); [|done]. by apply dealerPlay_conserved.
  - done.
  - unfold commit, autoPlayEffect.
    destruct (negb _); [done|].
    destruct (gamePhase s); rewrite ?andThen_apply; try done.
    + by apply dealHand_conserved.
    + unfold autoPlayPlayerTurnAction.
      destruct (_ || _); [done|].
      destruct (_ <? _); [done|].
      destruct (_ && _); [done|].
      destruct (dealerHand s !! 0%nat) as [up|]; [|done].
      destruct (shouldAutoPlayHit _ _ _); rewrite andThen_apply.
      * by apply hitPlayer_conserved.
      * unfold standPlayer. by destruct (_ && _).
  - unfold commit, manualResultEffect. by destruct (_ && _).
Qed.

End Conservation.


(** ** More on the hand evaluator *)

Section EvaluatorOrder.

(** The first pass without any assumption on the cards: the sum of what
    the code adds per card, and the number of aces. *)
Lemma sumCards_any (hand : list Card) (t : Z) (n : nat) :
  foldl (fun '(total, numAces) card =>
           if isAce (rank card) then (total + 11, S numAces)
           else (total + value card, numAces))
        (t, n) hand
  = (t + foldr (fun c acc =>
                  (if isAce (rank c) then 11 else value c) + acc) 0 hand,
     (n + countAces hand)%nat).
Proof.
  revert t n. induction hand as [|c hand IH]; intros t n.
  - cbn. f_equal; lia.
  - rewrite countAces_cons. cbn [foldl foldr].
    destruct (isAce (rank c)); rewrite IH; f_equal; lia.
Qed.

Lemma sumCards_Permutation (hand hand' : list Card) :
  hand ≡ₚ hand' -> sumCards hand = sumCards hand'.
Proof.
  intros Hperm. unfold sumCards. rewrite !sumCards_any. f_equal.
  - f_equal. induction Hperm as [|c l l' _ IH|c c' l|l l' l'' _ IH1 _ IH2];
      cbn [foldr]; [done | by rewrite IH | lia | by rewrite IH1].
  - f_equal. unfold countAces. by rewrite Hperm.
Qed.

Lemma rawTotal_app (hand : list Card) (c : Card) :
  rawTotal (hand ++ [c]) = rawTotal hand + baseValue (rank c).
Proof.
  unfold rawTotal. induction hand as [|x hand IH]; cbn [app foldr]; lia.
Qed.

Lemma countAces_app (hand : list Card) (c : Card) :
  countAces (hand ++ [c])
  = (countAces hand + if isAce (rank c) then 1 else 0)%nat.
Proof.
  induction hand as [|x hand IH]; cbn [app].
  - rewrite countAces_cons. destruct (isAce (rank c)); reflexivity.
  - rewrite !countAces_cons, IH. destruct (isAce (rank x)); lia.
Qed.

(** Some count of demoted aces keeps the hand within 21: then the
    evaluator's total is within 21. *)
Lemma total_at_most_21 (hand : list Card) (k : nat) :
  Forall wellFormed hand ->
  (k <= countAces hand)%nat ->
  rawTotal hand - 10 * Z.of_nat k <= 21 ->
  rawTotal hand - 10 * Z.of_nat k <= total (calculateHandValue hand)
  /\ total (calculateHandValue hand) <= 21.
Proof.
  intros Hwf Hk Hle.
  destruct (calculateHandValue_demoted hand Hwf)
    as (d & Hd & Htot & Hall & Hstop & _).
  assert (Hdk : (d <= k)%nat).
  { destruct (decide (d <= k)%nat) as [|Hgt]; [done|].
    specialize (Hall k ltac:(lia)). lia. }
  split; [lia|]. destruct Hstop as [Hstop | ->]; lia.
Qed.

End EvaluatorOrder.

(** The value of a hand does not depend on the order of its cards. *)
Theorem calculateHandValue_Permutation (hand hand' : list Card) :
  hand ≡ₚ hand' -> calculateHandValue hand = calculateHandValue hand'.
Proof.
  intros Hperm. unfold calculateHandValue.
  by rewrite (sumCards_Permutation hand hand' Hperm).
Qed.

Lemma calculateHandValue_Permutation_witness :
  let hand := [makeCard spades RA; makeCard hearts R6; makeCard clubs RK] in
  let hand' := [makeCard clubs RK; makeCard spades RA; makeCard hearts R6] in
  hand ≡ₚ hand'
  /\ calculateHandValue hand = calculateHandValue hand'.
Proof.
  intros hand hand'.
  assert (Hperm : hand ≡ₚ hand').
  { unfold hand, hand'. symmetry.
    apply (Permutation_cons_append [makeCard spades RA; makeCard hearts R6]). }
  split; [exact Hperm |].
  exact (calculateHandValue_Permutation hand hand' Hperm).
Defined.

(** The evaluator counts the aces as well as the rules allow: a soft
    hand is within 21 with exactly one ace at 11; a hand is over 21 only
    if it is over 21 with every ace at 1; and no way of counting some
    aces as 1 and the others as 11 gives a total within 21 that is
    higher than the evaluator's. *)
Theorem calculateHandValue_best_total (hand : list Card) :
  Forall wellFormed hand ->
  (isSoft (calculateHandValue hand) = true ->
   total (calculateHandValue hand) <= 21
   /\ total (calculateHandValue hand)
      = rawTotal hand - 10 * (Z.of_nat (countAces hand) - 1))
  /\ (21 < total (calculateHandValue hand)
      <-> 21 < rawTotal hand - 10 * Z.of_nat (countAces hand))
  /\ (forall k : nat,
        (k <= countAces hand)%nat ->
        rawTotal hand - 10 * Z.of_nat k <= 21 ->
        rawTotal hand - 10 * Z.of_nat k <= total (calculateHandValue hand)).
Proof.
  intros Hwf.
  destruct (calculateHandValue_demoted hand Hwf)
    as (d & Hd & Htot & Hall & Hstop & Hs).
  split_and!.
  - intros Hsoft. rewrite Hs in Hsoft. apply bool_decide_eq_true_1 in Hsoft.
    destruct Hstop as [Hstop | ->]; [|lia]. split; [done|].
    pose proof (rawTotal_lower_bound hand).
    pose proof (countAces_le_length hand).
    assert (Z.of_nat (countAces hand) - Z.of_nat d < 2); [|lia].
    destruct (decide (Z.of_nat (countAces hand) - Z.of_nat d < 2));
      [done | lia].
  - split.
    + intros Hbust. destruct Hstop as [Hstop | ->]; lia.
    + intros Hbust. lia.
  - intros k Hk Hle. by apply total_at_most_21.
Qed.

Lemma calculateHandValue_best_total_witness :
  let hand := [makeCard spades RA; makeCard hearts RA; makeCard clubs R9] in
  Forall wellFormed hand
  /\ isSoft (calculateHandValue hand) = true
  /\ total (calculateHandValue hand) <= 21
  /\ total (calculateHandValue hand)
     = rawTotal hand - 10 * (Z.of_nat (countAces hand) - 1).
Proof.
  intros hand.
  assert (Hwf : Forall wellFormed hand) by (repeat constructor).
  assert (Hsoft : isSoft (calculateHandValue hand) = true) by reflexivity.
  destruct (calculateHandValue_best_total hand Hwf) as (Hs & _ & _).
  destruct (Hs Hsoft) as [Hle Heq].
  split; [exact Hwf |]. split; [exact Hsoft |]. split; [exact Hle | exact Heq].
Defined.

Lemma hit_safe_total (hand : list Card) (card : Card) :
  Forall wellFormed hand -> wellFormed card ->
  total (calculateHandValue hand) <= 11 ->
  total (calculateHandValue (hand ++ [card])) <= 21.
Proof.
  intros Hwf Hc Hle.
  destruct (calculateHandValue_demoted hand Hwf)
    as (d & Hd & Htot & _ & _ & _).
  assert (Hwf' : Forall wellFormed (hand ++ [card])).
  { apply Forall_app. split; [done | by constructor]. }
  destruct (isAce (rank card)) eqn:Hace.
  - apply (total_at_most_21 (hand ++ [card]) (S d) Hwf').
    + rewrite countAces_app, Hace. lia.
    + rewrite rawTotal_app. destruct (rank card); try discriminate. cbn. lia.
  - apply (total_at_most_21 (hand ++ [card]) d Hwf').
    + rewrite countAces_app, Hace. lia.
    + rewrite rawTotal_app. destruct (rank card); try discriminate; cbn; lia.
Qed.

(** A hit on a total of 11 or less cannot bust, as the comment of the
    five-card rule says: whatever card is added, the new total is within
    21. *)
Theorem hit_on_11_or_less_cannot_bust (hand : list Card) (card : Card) :
  Forall wellFormed hand -> wellFormed card ->
  total (calculateHandValue hand) <= 11 ->
  total (calculateHandValue (hand ++ [card])) <= 21.
Proof. apply hit_safe_total. Qed.

Lemma hit_on_11_or_less_cannot_bust_witness :
  let hand := [makeCard hearts R2; makeCard diamonds R2; makeCard clubs R2;
               makeCard spades R2; makeCard hearts R3] in
  (Forall wellFormed hand /\ wellFormed (makeCard spades RA)
   /\ total (calculateHandValue hand) <= 11)
  /\ total (calculateHandValue (hand ++ [makeCard spades RA])) <= 21.
Proof.
  intros hand.
  assert (Hwf : Forall wellFormed hand) by (repeat constructor).
  assert (Hc : wellFormed (makeCard spades RA)) by reflexivity.
  assert (Hle : total (calculateHandValue hand) <= 11)
    by (vm_compute; discriminate).
  split; [by split_and! |].
  exact (hit_on_11_or_less_cannot_bust hand (makeCard spades RA) Hwf Hc Hle).
Defined.

(** ** What each handler does to the state *)

Section Effects.

(** A hit in the player's turn with a card on the deck. *)
Lemma hitPlayer_effect (c s : GameState) (card : Card) (rest : list Card) :
  sameGame c s -> gamePhase c = playerTurn -> deck c = rest ++ [card] ->
  let hand := playerHand c ++ [card] in
  let r := hitPlayer c s in
  playerHand r = hand /\ deck r = rest /\ dealerHand r = dealerHand c
  /\ throughput r = throughput c /\ points r = points c
  /\ betAmount r = betAmount c /\ autoPlayMode r = autoPlayMode c
  /\ (gamePhase r, bankroll r)
     = (if 21 <? total (calculateHandValue hand) then (result, bankroll c)
        else if (length hand =? 6)%nat
             then (result, bankroll c + 2 * betAmount c)
             else (playerTurn, bankroll c))
  /\ lastHandResult r
     = (if 21 <? total (calculateHandValue hand) then Loss
        else if (length hand =? 6)%nat then Win else lastHandResult s).
Proof.
  intros (Hb & Ht & Hpt & Hbet & Hp & Ha & Hd & Hph & Hdh) Hturn Hdeck.
  cbn zeta. unfold hitPlayer. rewrite Hturn, Hdeck, pop_snoc.
  cbn [isPhase negb andb].
  destruct (Z.ltb_spec 21 (total (calculateHandValue (playerHand c ++ [card]))));
    destruct (Z.leb_spec (total (calculateHandValue (playerHand c ++ [card]))) 21);
    try lia;
    destruct (length (playerHand c ++ [card]) =? 6)%nat; cbn [andb];
    try destruct (negb (autoPlayMode c)); simpl_updates;
    rewrite ?Hb, ?Ht, ?Hpt, ?Hbet, ?Hp, ?Ha, ?Hdh, ?Hturn;
    split_and!; try done; f_equal; lia.
Qed.

(** A stand in the player's turn. *)
Lemma standPlayer_effect (c s : GameState) :
  gamePhase c = playerTurn ->
  standPlayer c s = setMessage "Dealer is playing..." (setGamePhase dealerTurn s).
Proof. intros Hturn. unfold standPlayer. by rewrite Hturn. Qed.

(** An accepted deal, on any state that agrees with the closure. *)
Lemma dealHand_effect (rnd : nat -> nat) (c s : GameState) :
  sameGame c s ->
  gamePhase c = betting \/ gamePhase c = result ->
  betAmount c <= bankroll c ->
  exists p1 p2 q1 q2 rest,
    shuffleDeck rnd createDeck = rest ++ [q2; q1; p2; p1]
    /\ let playerVal := total (calculateHandValue [p1; p2]) in
       let dealerVal := total (calculateHandValue [q1; q2]) in
       let r := dealHand rnd c s in
       playerHand r = [p1; p2] /\ dealerHand r = [q1; q2] /\ deck r = rest
       /\ throughput r = throughput c + betAmount c
       /\ points r = points c /\ betAmount r = betAmount c
       /\ autoPlayMode r = autoPlayMode c
       /\ (gamePhase r, lastHandResult r, bankroll r)
          = if dealerVal =? 21 then
              if playerVal =? 21 then (result, Loss, bankroll c)
              else (result, Loss, bankroll c - betAmount c)
            else
              if playerVal =? 21
              then (result, Win, bankroll c + betAmount c)
              else (playerTurn, NoResult, bankroll c - betAmount c).
Proof.
  intros (Hb & Ht & Hpt & Hbet & Hp & Ha & _) Hphase Hfunds.
  destruct (dealCards_Some (shuffleDeck rnd createDeck))
    as (p1 & p2 & q1 & q2 & rest & Hd & Hs).
  { rewrite shuffleDeck_length. cbn. lia. }
  exists p1, p2, q1, q2, rest. split; [done|].
  cbn zeta. unfold dealHand. rewrite Hd.
  destruct (Z.ltb_spec (bankroll c) (betAmount c)); [lia|].
  assert (negb (isPhase (gamePhase c) betting)
          && negb (isPhase (gamePhase c) result) = false) as ->
    by (destruct Hphase as [-> | ->]; reflexivity).
  cbn [length Nat.eqb andb]. rewrite !andb_true_r.
  destruct (total (calculateHandValue [p1; p2]) =? 21),
           (total (calculateHandValue [q1; q2]) =? 21);
    simpl_updates; rewrite ?Hb, ?Ht, ?Hpt, ?Hbet, ?Ha;
    split_and!; try done; f_equal; lia.
Qed.

(** [dealerPlay] on the state it closed over: what it leaves alone, the
    totals it records and how it settles. *)
Lemma dealerPlay_effect (c : GameState) :
  let final := (dealerLoop (dealerHand c) (reverse (deck c)) skip).1.1 in
  let playerVal := total (calculateHandValue (playerHand c)) in
  let dealerVal := total (calculateHandValue final) in
  let r := commit dealerPlay c in
  dealerHand r = final /\ playerHand r = playerHand c
  /\ throughput r = throughput c /\ points r = points c
  /\ betAmount r = betAmount c /\ autoPlayMode r = autoPlayMode c
  /\ gamePhase r = result
  /\ lastPlayerTotal r = playerVal /\ lastDealerTotal r = dealerVal
  /\ (lastHandResult r, bankroll r - bankroll c)
     = if (length final =? 6)%nat && (dealerVal <? 17)
       then (Win, 2 * betAmount c)
       else settle playerVal dealerVal (length (playerHand c))
              (length final) (betAmount c).
Proof.
  cbn zeta. destruct (dealerPlay_cards c) as (_ & Hph & Hdh).
  split; [done|]. split; [done|]. clear Hph Hdh.
  unfold commit, dealerPlay.
  destruct (dealerLoop_queue (reverse (deck c)) (dealerHand c) skip c
              eq_refl) as [m Hq]; [by rewrite reverse_involutive|].
  destruct (dealerLoop (dealerHand c) (reverse (deck c)) skip)
    as [[h rest] q]. cbn [fst snd] in *.
  rewrite !andThen_apply, Hq.
  destruct (_ && _).
  - unfold dealerCharlie. simpl_updates. split_and!; try done. f_equal. lia.
  - set (s := (setDealerHand h >>> setDeck (reverse rest) >>> setMessage m)
                (skip c)).
    destruct (determineWinner_state c s (playerHand c) h (betAmount c)
                eq_refl) as [msg ->].
    unfold s. destruct (settle _ _ _ _ _) as [o d].
    simpl_updates. cbn [fst snd]. split_and!; try done. f_equal. lia.
Qed.

End Effects.

(** ** The ledger *)

Section Ledger.

Lemma sameGame_refl (s : GameState) : sameGame s s.
Proof. by repeat split. Qed.

Lemma sameGame_setMessage (s : GameState) (m : string) :
  sameGame s (setMessage m s).
Proof. by repeat split. Qed.

(** In the player's turn of a round there is a card on the deck. *)
Lemma roundInvariant_top_card (s : GameState) :
  roundInvariant s -> gamePhase s = playerTurn ->
  exists card rest, deck s = rest ++ [card].
Proof.
  unfold roundInvariant. intros Hinv Hp. rewrite Hp in Hinv.
  destruct Hinv as (_ & Hpl & Hsum & _).
  destruct (deck s) as [|card rest _] using rev_ind; [cbn in Hsum; lia|].
  by exists card, rest.
Qed.







End Ledger.


(** ** Rounds in reachable states *)

Section Reachable.

Lemma run_app (es1 es2 : list Event) (s : GameState) :
  run (es1 ++ es2) s = run es2 (run es1 s).
Proof. unfold run. by rewrite foldl_app. Qed.

Lemma run_conserved (es : list Event) : conserved (run es initialState).
Proof.
  induction es as [|e es IH] using rev_ind; [by left|].
  rewrite run_snoc. by apply step_conserved.
Qed.

(** Every card in play is a card of [createDeck]. *)
Lemma run_wellFormed (es : list Event) :
  Forall wellFormed (cardsInPlay (run es initialState)).
Proof.
  destruct (run_conserved es) as [-> | ->]; [constructor|].
  apply createDeck_wellFormed.
Qed.


(** The auto-play action in the player's turn of a round: the two early
    returns and the missing up-card do not occur, and it hits or stands
    as [shouldAutoPlayHit] says. *)
Lemma autoPlayEffect_playerTurn (rnd : nat -> nat) (s : GameState) :
  roundInvariant s -> gamePhase s = playerTurn -> autoPlayMode s = true ->
  exists up,
    dealerHand s !! 0%nat = Some up
    /\ step (RunAutoPlayEffect rnd) s
       = if shouldAutoPlayHit (playerHand s) up (length (playerHand s))
         then hitPlayer s (setMessage "Auto-play: Hitting..."
                             (setMessage "Auto-play: Player's turn..." s))
         else standPlayer s (setMessage "Auto-play: Standing..."
                               (setMessage "Auto-play: Player's turn..." s)).
Proof.
  intros Hinv Hp Ha. unfold roundInvariant in Hinv. rewrite Hp in Hinv.
  destruct Hinv as (Hdl & Hpl & _ & Htot).
  destruct (dealerHand s) as [|up dh] eqn:Hdh; [done|].
  exists up. split; [done|].
  cbn [step]. unfold commit, autoPlayEffect. rewrite Ha, Hp. cbn [negb].
  rewrite andThen_apply. unfold autoPlayPlayerTurnAction.
  rewrite Ha, Hp, Hdh. cbn [negb orb isPhase lookup list_lookup].
  destruct (Z.ltb_spec 21 (total (calculateHandValue (playerHand s))));
    [lia|].
  destruct (Nat.eqb_spec (length (playerHand s)) 6); [lia|]. cbn [andb].
  by destruct (shouldAutoPlayHit _ _ _).
Qed.

End Reachable.

(** A hit in the player's turn of a reachable state always finds a card:
    it moves the top card of the deck to the end of the player's hand
    and leaves the dealer's hand, the throughput and the auto-play flag
    alone.  The round ends as a loss when the new total is over 21, as a
    win paid twice the wager when the hand has reached six cards within
    21, and goes on otherwise. *)
Theorem hit_takes_the_top_card (es : list Event) :
  let s := run es initialState in
  gamePhase s = playerTurn ->
  exists card rest,
    deck s = rest ++ [card]
    /\ let s' := step ClickHit s in
       playerHand s' = playerHand s ++ [card]
       /\ deck s' = rest
       /\ dealerHand s' = dealerHand s
       /\ throughput s' = throughput s
       /\ autoPlayMode s' = autoPlayMode s
       /\ (gamePhase s', bankroll s')
          = (if 21 <? total (calculateHandValue (playerHand s'))
             then (result, bankroll s)
             else if (length (playerHand s') =? 6)%nat
                  then (result, bankroll s + 2 * betAmount s)
                  else (playerTurn, bankroll s))
       /\ lastHandResult s'
          = (if 21 <? total (calculateHandValue (playerHand s')) then Loss
             else if (length (playerHand s') =? 6)%nat then Win
                  else lastHandResult s).
Proof.
  intros s Hp. pose proof (run_round es) as Hinv. fold s in Hinv.
  destruct (roundInvariant_top_card s Hinv Hp) as (card & rest & Hd).
  exists card, rest. split; [done|]. cbn zeta.
  cbn [step]. rewrite Hp. cbn [isPhase negb andb]. unfold commit.
  destruct (hitPlayer_effect s s card rest (sameGame_refl s) Hp Hd)
    as (Hph & Hdk & Hdh & Hth & _ & _ & Ha & Htuple & Hres).
  cbn zeta in *. rewrite Hph. by split_and!.
Qed.

Lemma hit_takes_the_top_card_witness :
  gamePhase (run [ClickDeal plainDeal] initialState) = playerTurn
  /\ exists card rest,
       deck (run [ClickDeal plainDeal] initialState) = rest ++ [card]
       /\ playerHand (step ClickHit (run [ClickDeal plainDeal] initialState))
          = playerHand (run [ClickDeal plainDeal] initialState) ++ [card].
Proof.
  assert (Hp : gamePhase (run [ClickDeal plainDeal] initialState) = playerTurn)
    by (vm_compute; reflexivity).
  destruct (hit_takes_the_top_card [ClickDeal plainDeal] Hp)
    as (card & rest & Hd & Hph & _).
  split; [exact Hp |]. exists card, rest. split; [exact Hd | exact Hph].
Defined.

(** The hit of the five-card rule always wins.  In a reachable player's
    turn with five cards worth 11 or less, [shouldAutoPlayHit] says hit
    against every up-card, and the hit, by hand or by auto-play, ends
    the round as a six-card win paid twice the wager. *)
Theorem five_card_rule_hit_wins (es : list Event) (rnd : nat -> nat) :
  let s := run es initialState in
  gamePhase s = playerTurn ->
  length (playerHand s) = 5%nat ->
  10 <= 21 - total (calculateHandValue (playerHand s)) ->
  (forall up : Card, shouldAutoPlayHit (playerHand s) up 5 = true)
  /\ (forall s' : GameState,
        s' = step ClickHit s
        \/ (autoPlayMode s = true /\ s' = step (RunAutoPlayEffect rnd) s) ->
        length (playerHand s') = 6%nat
        /\ total (calculateHandValue (playerHand s')) <= 21
        /\ gamePhase s' = result
        /\ lastHandResult s' = Win
        /\ bankroll s' = bankroll s + 2 * betAmount s).
Proof.
  intros s Hp Hlen Hguard.
  pose proof (run_round es) as Hinv. fold s in Hinv.
  pose proof (run_wellFormed es) as Hwf. fold s in Hwf.
  unfold cardsInPlay in Hwf.
  apply Forall_app in Hwf as [Hdeck Hwf]. apply Forall_app in Hwf as [Hhand _].
  destruct (roundInvariant_top_card s Hinv Hp) as (card & rest & Hd).
  rewrite Hd in Hdeck. apply Forall_app in Hdeck as [_ Hcard].
  apply Forall_cons in Hcard as [Hcard _].
  assert (Hsafe : total (calculateHandValue (playerHand s ++ [card])) <= 21)
    by (apply hit_safe_total; [done | done | lia]).
  assert (Hsix : length (playerHand s ++ [card]) = 6%nat)
    by (rewrite length_app, Hlen; reflexivity).
  assert (Hhit : forall up, shouldAutoPlayHit (playerHand s) up 5 = true).
  { intros up. rewrite shouldAutoPlayHit_table. unfold strategyTable.
    cbn [Nat.eqb andb].
    by destruct (Z.leb_spec 10 (21 - total (calculateHandValue (playerHand s))));
      [|lia]. }
  split; [exact Hhit|].
  assert (Heffect : forall q : GameState,
             sameGame s q ->
             length (playerHand (hitPlayer s q)) = 6%nat
             /\ total (calculateHandValue (playerHand (hitPlayer s q))) <= 21
             /\ gamePhase (hitPlayer s q) = result
             /\ lastHandResult (hitPlayer s q) = Win
             /\ bankroll (hitPlayer s q) = bankroll s + 2 * betAmount s).
  { intros q Hq.
    destruct (hitPlayer_effect s q card rest Hq Hp Hd)
      as (Hph & _ & _ & _ & _ & _ & _ & Htuple & Hres).
    cbn zeta in *. rewrite Hph, Hres. rewrite Hsix in *.
    destruct (Z.ltb_spec 21 (total (calculateHandValue (playerHand s ++ [card]))));
      [lia|].
    cbn [Nat.eqb] in *. injection Htuple as -> ->. by split_and!. }
  intros s' [-> | [Ha ->]].
  - cbn [step]. rewrite Hp. cbn [isPhase negb andb]. unfold commit.
    apply Heffect, sameGame_refl.
  - destruct (autoPlayEffect_playerTurn rnd s Hinv Hp Ha) as (up & _ & ->).
    rewrite Hlen, Hhit. apply Heffect. by repeat split.
Qed.

(** The five-card rule on 2, 2, 2, 2, 3: the sixth card, a seven, makes
    18 and the bankroll goes from 990 to 1010. *)
Lemma five_card_rule_hit_wins_witness :
  let s := run [ClickDeal fiveCardDeal; ClickHit; ClickHit; ClickHit]
               initialState in
  (gamePhase s = playerTurn /\ length (playerHand s) = 5%nat
   /\ 10 <= 21 - total (calculateHandValue (playerHand s)))
  /\ lastHandResult (step ClickHit s) = Win
  /\ bankroll (step ClickHit s) = bankroll s + 2 * betAmount s.
Proof.
  intros s.
  assert (Hp : gamePhase s = playerTurn) by (vm_compute; reflexivity).
  assert (Hlen : length (playerHand s) = 5%nat) by (vm_compute; reflexivity).
  assert (Hg : 10 <= 21 - total (calculateHandValue (playerHand s)))
    by (vm_compute; discriminate).
  destruct (five_card_rule_hit_wins
              [ClickDeal fiveCardDeal; ClickHit; ClickHit; ClickHit]
              keepOrder Hp Hlen Hg) as [_ Hwin].
  destruct (Hwin (step ClickHit s) (or_introl eq_refl))
    as (_ & _ & _ & Hres & Hb).
  split; [by split_and! |]. split; [exact Hres | exact Hb].
Defined.

(** An accepted deal.  From the betting or result phase with the wager
    covered, the deal takes the last four cards of the freshly shuffled
    deck, the first two popped for the player and the next two for the
    dealer, and keeps the other 48; the wager is debited and added to
    the throughput.  A dealer natural ends the round as a loss (with the
    wager returned if the player has one too), a natural of the player
    alone as a win paid 1:1, and otherwise the player's turn begins. *)
Theorem dealHand_deals_two_each (rnd : nat -> nat) (c : GameState) :
  gamePhase c = betting \/ gamePhase c = result ->
  betAmount c <= bankroll c ->
  exists p1 p2 q1 q2 rest,
    shuffleDeck rnd createDeck = rest ++ [q2; q1; p2; p1]
    /\ length rest = 48%nat
    /\ let playerVal := total (calculateHandValue [p1; p2]) in
       let dealerVal := total (calculateHandValue [q1; q2]) in
       let r := commit (dealHand rnd) c in
       playerHand r = [p1; p2] /\ dealerHand r = [q1; q2] /\ deck r = rest
       /\ throughput r = throughput c + betAmount c
       /\ betAmount r = betAmount c
       /\ autoPlayMode r = autoPlayMode c
       /\ (gamePhase r, lastHandResult r, bankroll r)
          = (if dealerVal =? 21 then
               if playerVal =? 21 then (result, Loss, bankroll c)
               else (result, Loss, bankroll c - betAmount c)
             else
               if playerVal =? 21
               then (result, Win, bankroll c + betAmount c)
               else (playerTurn, NoResult, bankroll c - betAmount c)).
Proof.
  intros Hp Hfunds.
  destruct (dealHand_effect rnd c c (sameGame_refl c) Hp Hfunds)
    as (p1 & p2 & q1 & q2 & rest & Hd & H).
  exists p1, p2, q1, q2, rest. split; [done|]. split.
  - apply (f_equal length) in Hd.
    rewrite shuffleDeck_length, length_app in Hd. cbn in Hd. lia.
  - cbn zeta in *. unfold commit.
    destruct H as (? & ? & ? & ? & _ & ? & ? & ?). by split_and!.
Qed.

Lemma dealHand_deals_two_each_witness :
  (gamePhase initialState = betting
   /\ betAmount initialState <= bankroll initialState)
  /\ exists p1 p2 q1 q2 rest,
       shuffleDeck plainDeal createDeck = rest ++ [q2; q1; p2; p1]
       /\ playerHand (commit (dealHand plainDeal) initialState) = [p1; p2]
       /\ dealerHand (commit (dealHand plainDeal) initialState) = [q1; q2].
Proof.
  assert (Hb : betAmount initialState <= bankroll initialState)
    by (vm_compute; discriminate).
  destruct (dealHand_deals_two_each plainDeal initialState
              (or_introl eq_refl) Hb)
    as (p1 & p2 & q1 & q2 & rest & Hd & _ & Hph & Hdh & _).
  split; [split; [reflexivity | exact Hb] |].
  exists p1, p2, q1, q2, rest.
  split; [exact Hd |]. split; [exact Hph | exact Hdh].
Defined.



(** ** Auto-play *)

Section AutoPlay.

(** One run of the auto-play effect in the player's turn: the turn is
    over, or the player holds one card more and auto-play is still on. *)
Lemma autoPlayEffect_progress (rnd : nat -> nat) (s : GameState) :
  roundInvariant s -> gamePhase s = playerTurn -> autoPlayMode s = true ->
  let s1 := step (RunAutoPlayEffect rnd) s in
  (gamePhase s1 = dealerTurn \/ gamePhase s1 = result)
  \/ (gamePhase s1 = playerTurn /\ autoPlayMode s1 = true
      /\ length (playerHand s1) = S (length (playerHand s))).
Proof.
  intros Hinv Hp Ha. cbn zeta.
  destruct (autoPlayEffect_playerTurn rnd s Hinv Hp Ha) as (up & _ & ->).
  destruct (shouldAutoPlayHit _ _ _).
  - destruct (roundInvariant_top_card s Hinv Hp) as (card & rest & Hd).
    destruct (hitPlayer_effect s
                (setMessage "Auto-play: Hitting..."
                   (setMessage "Auto-play: Player's turn..." s))
                card rest ltac:(by repeat split) Hp Hd)
      as (Hph & _ & _ & _ & _ & _ & Hauto & Htuple & _).
    cbn zeta in *. rewrite Hph, Hauto, length_app. cbn [length].
    destruct (_ <? _); [|destruct (_ =? _)%nat];
      injection Htuple as -> _; [by left; right | by left; right |].
    right. split_and!; [done | done | lia].
  - rewrite (standPlayer_effect s _ Hp). left. by left.
Qed.

Lemma run_cons (e : Event) (es : list Event) (s : GameState) :
  run (e :: es) s = run es (step e s).
Proof. reflexivity. Qed.

(** Repeated runs of the effect end the player's turn within [n + 1]
    runs when the player is at most [n] cards short of five. *)
Lemma autoPlayEffect_ends_turn (rnd : nat -> nat) (n : nat) :
  forall es : list Event,
    let s := run es initialState in
    gamePhase s = playerTurn -> autoPlayMode s = true ->
    (5 - length (playerHand s) <= n)%nat ->
    exists k : nat,
      (1 <= k <= S n)%nat
      /\ (forall j : nat, (j < k)%nat ->
            gamePhase (run (replicate j (RunAutoPlayEffect rnd)) s)
            = playerTurn
            /\ length (playerHand
                         (run (replicate j (RunAutoPlayEffect rnd)) s))
               = (length (playerHand s) + j)%nat)
      /\ (gamePhase (run (replicate k (RunAutoPlayEffect rnd)) s) = dealerTurn
          \/ gamePhase (run (replicate k (RunAutoPlayEffect rnd)) s) = result).
Proof.
  induction n as [|n IH]; intros es s Hp Ha Hn.
  - pose proof (run_round es) as Hinv. fold s in Hinv.
    destruct (autoPlayEffect_progress rnd s Hinv Hp Ha)
      as [Hdone | (Hp1 & _ & Hlen)].
    + exists 1%nat. split; [lia|]. split; [|exact Hdone].
      intros j Hj. assert (j = 0%nat) as -> by lia. cbn. split; [done | lia].
    + pose proof (run_round (es ++ [RunAutoPlayEffect rnd])) as Hinv1.
      rewrite run_snoc in Hinv1. fold s in Hinv1.
      unfold roundInvariant in Hinv1. rewrite Hp1 in Hinv1.
      destruct Hinv1 as (_ & Hfive & _). lia.
  - pose proof (run_round es) as Hinv. fold s in Hinv.
    destruct (autoPlayEffect_progress rnd s Hinv Hp Ha)
      as [Hdone | (Hp1 & Ha1 & Hlen)].
    + exists 1%nat. split; [lia|]. split; [|exact Hdone].
      intros j Hj. assert (j = 0%nat) as -> by lia. cbn. split; [done | lia].
    + destruct (IH (es ++ [RunAutoPlayEffect rnd])) as (k & Hk & Hall & Hend).
      * by rewrite run_snoc.
      * by rewrite run_snoc.
      * rewrite run_snoc. fold s. lia.
      * rewrite run_snoc in Hall, Hend. fold s in Hall, Hend.
        exists (S k). split; [lia|]. split; [|exact Hend].
        intros [|j] Hj; [cbn; split; [done | lia]|].
        cbn [replicate]. rewrite run_cons.
        destruct (Hall j ltac:(lia)) as [Hpj Hlj]. split; [done|].
        rewrite Hlj, Hlen. lia.
Qed.

End AutoPlay.

(** Auto-play always gets through the player's turn.  In a reachable
    player's turn with auto-play on, each run of the auto-play effect
    hits or stands as [shouldAutoPlayHit] says against the dealer's first
    card (its early returns for a bust or six cards never apply), a hit
    adding one card; and after at most four runs the turn is over, in
    the dealer's turn or in the result phase. *)
Theorem auto_play_ends_players_turn (es : list Event) (rnd : nat -> nat) :
  let s := run es initialState in
  gamePhase s = playerTurn -> autoPlayMode s = true ->
  (exists up : Card,
      dealerHand s !! 0%nat = Some up
      /\ step (RunAutoPlayEffect rnd) s
         = if shouldAutoPlayHit (playerHand s) up (length (playerHand s))
           then hitPlayer s (setMessage "Auto-play: Hitting..."
                               (setMessage "Auto-play: Player's turn..." s))
           else standPlayer s (setMessage "Auto-play: Standing..."
                                 (setMessage "Auto-play: Player's turn..." s)))
  /\ exists k : nat,
      (1 <= k <= 4)%nat
      /\ (forall j : nat, (j < k)%nat ->
            gamePhase (run (replicate j (RunAutoPlayEffect rnd)) s)
            = playerTurn
            /\ length (playerHand
                         (run (replicate j (RunAutoPlayEffect rnd)) s))
               = (length (playerHand s) + j)%nat)
      /\ (gamePhase (run (replicate k (RunAutoPlayEffect rnd)) s) = dealerTurn
          \/ gamePhase (run (replicate k (RunAutoPlayEffect rnd)) s) = result).
Proof.
  intros s Hp Ha. pose proof (run_round es) as Hinv. fold s in Hinv.
  split; [by apply autoPlayEffect_playerTurn|].
  apply (autoPlayEffect_ends_turn rnd 3 es Hp Ha).
  unfold roundInvariant in Hinv. fold s. rewrite Hp in Hinv. lia.
Qed.

(** Auto-play on the first deal of [plainDeal]: the player's 12 against
    a queen is hit. *)
Lemma auto_play_ends_players_turn_witness :
  let s := run [ClickAutoPlay; RunAutoPlayEffect plainDeal] initialState in
  (gamePhase s = playerTurn /\ autoPlayMode s = true)
  /\ exists k : nat,
       (1 <= k <= 4)%nat
       /\ (gamePhase (run (replicate k (RunAutoPlayEffect keepOrder)) s)
           = dealerTurn
           \/ gamePhase (run (replicate k (RunAutoPlayEffect keepOrder)) s)
              = result).
Proof.
  intros s.
  assert (Hp : gamePhase s = playerTurn) by (vm_compute; reflexivity).
  assert (Ha : autoPlayMode s = true) by (vm_compute; reflexivity).
  destruct (auto_play_ends_players_turn
              [ClickAutoPlay; RunAutoPlayEffect plainDeal] keepOrder Hp Ha)
    as (_ & k & Hk & _ & Hend).
  split; [split; [exact Hp | exact Ha] |].
  exists k. split; [exact Hk | exact Hend].
Defined.

(** ** The policy and the evaluator together *)

Section PolicyRisk.

(** A hit on a soft hand stays within 21: the ace counted as 11 can
    still be counted as 1. *)
Lemma hit_soft_total (hand : list Card) (card : Card) :
  Forall wellFormed hand -> wellFormed card ->
  isSoft (calculateHandValue hand) = true ->
  total (calculateHandValue (hand ++ [card])) <= 21.
Proof.
  intros Hwf Hc Hs.
  destruct (calculateHandValue_demoted hand Hwf)
    as (d & Hd & Htot & _ & Hstop & Hsoft).
  rewrite Hsoft in Hs. apply bool_decide_eq_true_1 in Hs.
  destruct Hstop as [Hstop | ->]; [|lia].
  assert (Hwf' : Forall wellFormed (hand ++ [card])).
  { apply Forall_app. split; [done | by constructor]. }
  destruct (isAce (rank card)) eqn:Hace.
  - apply (total_at_most_21 (hand ++ [card]) (S (S d)) Hwf').
    + rewrite countAces_app, Hace. lia.
    + rewrite rawTotal_app. destruct (rank card); try discriminate. cbn. lia.
  - apply (total_at_most_21 (hand ++ [card]) (S d) Hwf').
    + rewrite countAces_app, Hace. lia.
    + rewrite rawTotal_app. destruct (rank card); try discriminate; cbn; lia.
Qed.

(** On a hard hand, a card that fits under 21 at face value, an ace at
    1, keeps the hand within 21. *)
Lemma hit_hard_total (hand : list Card) (card : Card) :
  Forall wellFormed hand -> wellFormed card ->
  total (calculateHandValue hand)
  + (if isAce (rank card) then 1 else value card) <= 21 ->
  total (calculateHandValue (hand ++ [card])) <= 21.
Proof.
  intros Hwf Hc Hle.
  destruct (calculateHandValue_demoted hand Hwf)
    as (d & Hd & Htot & _ & _ & _).
  assert (Hwf' : Forall wellFormed (hand ++ [card])).
  { apply Forall_app. split; [done | by constructor]. }
  unfold wellFormed in Hc. rewrite Hc in Hle.
  destruct (isAce (rank card)) eqn:Hace.
  - apply (total_at_most_21 (hand ++ [card]) (S d) Hwf').
    + rewrite countAces_app, Hace. lia.
    + rewrite rawTotal_app. destruct (rank card); try discriminate. cbn. lia.
  - apply (total_at_most_21 (hand ++ [card]) d Hwf').
    + rewrite countAces_app, Hace. lia.
    + rewrite rawTotal_app.
      destruct (rank card); try discriminate; cbn in *; lia.
Qed.

End PolicyRisk.

(** Where auto-play can bust.  If [shouldAutoPlayHit] says hit and the
    card drawn takes the hand over 21, the hand was hard and worth 12 to
    16, the dealer's up-card counts 7 or more (or 2 or 3 against a 12),
    and the card is no ace and worth more than the hand had left: a hit
    on a soft hand, or on 11 or less, never busts. *)
Theorem auto_play_busts_only_from_hard_12_to_16
    (hand : list Card) (up card : Card) :
  Forall wellFormed hand -> wellFormed card ->
  shouldAutoPlayHit hand up (length hand) = true ->
  21 < total (calculateHandValue (hand ++ [card])) ->
  isSoft (calculateHandValue hand) = false
  /\ 12 <= total (calculateHandValue hand) <= 16
  /\ (7 <= dealerUpCardValue up
      \/ (total (calculateHandValue hand) = 12 /\ dealerUpCardValue up <= 3))
  /\ isAce (rank card) = false
  /\ 21 - total (calculateHandValue hand) < value card <= 10.
Proof.
  intros Hwf Hc Hhit Hbust.
  destruct (isSoft (calculateHandValue hand)) eqn:Hsoft.
  { pose proof (hit_soft_total hand card Hwf Hc Hsoft). lia. }
  assert (Hhard : 21 < total (calculateHandValue hand)
                       + (if isAce (rank card) then 1 else value card)).
  { destruct (decide (21 < total (calculateHandValue hand)
                           + (if isAce (rank card) then 1 else value card)));
      [done|].
    pose proof (hit_hard_total hand card Hwf Hc ltac:(lia)). lia. }
  assert (Hv : (if isAce (rank card) then 1 else value card) <= 10).
  { unfold wellFormed in Hc. rewrite Hc.
    destruct (rank card); cbn; lia. }
  rewrite shouldAutoPlayHit_table, strategyTable_five_card_rule in Hhit.
  unfold strategyTableWithoutFiveCardRule in Hhit.
  rewrite Hsoft, dealerUpCardValue_baseValue in *.
  pose proof (baseValue_range (rank up)) as Hup.
  set (t := total (calculateHandValue hand)) in *.
  assert (Hrange : 12 <= t <= 16
                   /\ (7 <= baseValue (rank up)
                       \/ (t = 12 /\ baseValue (rank up) <= 3))).
  { revert Hhit Hup. generalize (baseValue (rank up)). intros v Hhit Hup.
    assert (v = 2 \/ v = 3 \/ v = 4 \/ v = 5 \/ v = 6 \/ 7 <= v)
      as Hcases by lia.
    revert Hhit.
    destruct (Z.leb_spec 21 t); [done|].
    destruct (Z.leb_spec t 11).
    { intros _.
      pose proof (hit_hard_total hand card Hwf Hc ltac:(fold t; lia)). lia. }
    destruct (Z.eqb_spec t 12) as [Heq|Hne].
    - intros Hhit. split; [lia|].
      destruct_or! Hcases; try subst v; try discriminate Hhit; try lia.
      all: right; split; [done | lia].
    - destruct (Z.leb_spec t 16); [|done]. intros Hhit. split; [lia|]. left.
      destruct_or! Hcases; try subst v; try discriminate Hhit; lia. }
  destruct Hrange as [Ht Hv']. split; [done|]. split; [done|]. split; [done|].
  destruct (isAce (rank card)); [lia|]. split; [done | lia].
Qed.

(** A hard 16 against a ten is hit, and a ten busts it. *)
Lemma auto_play_busts_only_from_hard_12_to_16_witness :
  let hand := [makeCard spades R10; makeCard hearts R6] in
  let up := makeCard clubs RK in
  let card := makeCard diamonds RQ in
  (Forall wellFormed hand /\ wellFormed card
   /\ shouldAutoPlayHit hand up (length hand) = true
   /\ 21 < total (calculateHandValue (hand ++ [card])))
  /\ isSoft (calculateHandValue hand) = false
  /\ 12 <= total (calculateHandValue hand) <= 16.
Proof.
  intros hand up card.
  assert (Hwf : Forall wellFormed hand) by (repeat constructor).
  assert (Hc : wellFormed card) by reflexivity.
  assert (Hhit : shouldAutoPlayHit hand up (length hand) = true)
    by reflexivity.
  assert (Hbust : 21 < total (calculateHandValue (hand ++ [card])))
    by reflexivity.
  destruct (auto_play_busts_only_from_hard_12_to_16 hand up card
              Hwf Hc Hhit Hbust) as (Hs & Ht & _).
  split; [by split_and! |]. split; [exact Hs | exact Ht].
Defined.

(** ** The phases and the settings *)

Section Transitions.

(** What one step does to the phase, the auto-play flag and the wager of
    a state that satisfies the round invariant. *)
Lemma step_changes (e : Event) (s : GameState) :
  roundInvariant s ->
  let s' := step e s in
  (gamePhase s' = gamePhase s
   \/ (e = ClickReset /\ autoPlayMode s = false /\ gamePhase s' = betting)
   \/ (gamePhase s = result /\ gamePhase s' = betting
       /\ ((e = RunManualResultEffect /\ autoPlayMode s = false)
           \/ (autoPlayMode s = true /\ exists rnd, e = RunAutoPlayEffect rnd)))
   \/ ((gamePhase s = betting \/ gamePhase s = result)
       /\ betAmount s <= bankroll s
       /\ (gamePhase s' = playerTurn \/ gamePhase s' = result)
       /\ ((autoPlayMode s = false /\ exists rnd, e = ClickDeal rnd)
           \/ (autoPlayMode s = true /\ gamePhase s = betting
               /\ exists rnd, e = RunAutoPlayEffect rnd)))
   \/ (gamePhase s = playerTurn /\ gamePhase s' = result
       /\ (e = ClickHit
           \/ (autoPlayMode s = true /\ exists rnd, e = RunAutoPlayEffect rnd)))
   \/ (gamePhase s = playerTurn /\ gamePhase s' = dealerTurn
       /\ (e = ClickStand
           \/ (autoPlayMode s = true /\ exists rnd, e = RunAutoPlayEffect rnd)))
   \/ (gamePhase s = dealerTurn /\ gamePhase s' = result
       /\ e = RunDealerTurnEffect))
  /\ (autoPlayMode s' = autoPlayMode s
      \/ (e = ClickAutoPlay /\ gamePhase s' = gamePhase s)
      \/ (autoPlayMode s = true /\ autoPlayMode s' = false
          /\ gamePhase s = betting /\ gamePhase s' = betting
          /\ bankroll s < betAmount s
          /\ exists rnd, e = RunAutoPlayEffect rnd))
  /\ (betAmount s' = betAmount s
      \/ (gamePhase s = betting /\ gamePhase s' = betting
          /\ betAmount s' ∈ betOptions /\ e = SelectBet (betAmount s'))).
Proof.
  intros Hinv. cbn zeta.
  destruct e as [rnd| | | | |amount| | |rnd|]; cbn [step].
  - (* ClickDeal *)
    destruct ((negb (isPhase (gamePhase s) betting)
               && negb (isPhase (gamePhase s) result)) || autoPlayMode s)
      eqn:Hdis; [by split_and!; left|].
    apply orb_false_elim in Hdis as [Hph Ha].
    assert (Hp : gamePhase s = betting \/ gamePhase s = result)
      by (destruct (gamePhase s); try discriminate; auto).
    destruct (Z.lt_ge_cases (bankroll s) (betAmount s)) as [Hlt|Hge].
    + unfold commit. rewrite (dealHand_rejected rnd s Hlt), Ha.
      assert (isPhase (gamePhase s) betting || isPhase (gamePhase s) result
              = true) as -> by (destruct Hp as [-> | ->]; reflexivity).
      simpl_updates. by split_and!; left.
    + destruct (dealHand_effect rnd s s (sameGame_refl s) Hp Hge)
        as (p1 & p2 & q1 & q2 & rest & _ & H).
      cbn zeta in H.
      destruct H as (_ & _ & _ & _ & _ & Hbet & Hauto & Htuple).
      unfold commit. rewrite Hbet, Hauto.
      split_and!; [|by left|by left].
      do 3 right. left. split; [done|]. split; [lia|]. split.
      * destruct (_ =? _), (_ =? _); injection Htuple as -> _ _; auto.
      * left. split; [done|]. by exists rnd.
  - (* ClickHit *)
    destruct (gamePhase s) eqn:Hp; cbn [isPhase negb andb];
      try (by split_and!; left).
    + destruct (roundInvariant_top_card s Hinv Hp) as (card & rest & Hd).
      destruct (hitPlayer_effect s s card rest (sameGame_refl s) Hp Hd)
        as (_ & _ & _ & _ & _ & Hbet & Hauto & Htuple & _).
      cbn zeta in *. unfold commit. rewrite Hbet, Hauto.
      split_and!; [|by left|by left].
      destruct (_ <? _); [|destruct (_ =? _)%nat];
        injection Htuple as -> _; auto 10.
    + unfold roundInvariant in Hinv. by rewrite Hp in Hinv.
  - (* ClickStand *)
    destruct (gamePhase s) eqn:Hp; cbn [isPhase negb andb];
      try (by split_and!; left).
    + unfold commit. rewrite (standPlayer_effect s s Hp). simpl_updates.
      split_and!; [|by left|by left]. auto 10.
    + unfold roundInvariant in Hinv. by rewrite Hp in Hinv.
  - (* ClickAutoPlay *)
    unfold toggleAutoPlay. destruct (autoPlayMode s) eqn:Ha; simpl_updates;
      (split_and!; [by left | by right; left | by left]).
  - (* ClickReset *)
    destruct (autoPlayMode s) eqn:Ha; [by split_and!; left|].
    unfold resetGame. simpl_updates. split_and!; [|by left|by left].
    right. by left.
  - (* SelectBet *)
    destruct (gamePhase s) eqn:Hp; cbn [isPhase negb orb];
      try (by split_and!; left).
    destruct (bool_decide (amount ∈ betOptions)) eqn:Hin; cbn [negb];
      [|by split_and!; left].
    apply bool_decide_eq_true_1 in Hin. simpl_updates.
    split_and!; [by left | by left |]. right. by rewrite Hp.
  - (* RunDealerTurnEffect *)
    unfold commit, dealerTurnEffect.
    destruct (gamePhase s) eqn:Hp; cbn [isPhase]; unfold skip;
      try (by rewrite ?Hp; split_and!; left).
    destruct (dealerPlay_effect s) as (_ & _ & _ & _ & Hbet & Hauto & Hph & _).
    cbn zeta in *. unfold commit in *. rewrite Hbet, Hauto, Hph.
    split_and!; [|by left|by left]. auto 10.
  - (* RunPointsEffect *)
    unfold commit, pointsEffect. simpl_updates. by split_and!; left.
  - (* RunAutoPlayEffect *)
    destruct (autoPlayMode s) eqn:Ha.
    2:{ unfold commit, autoPlayEffect. rewrite Ha. cbn [negb]. unfold skip.
        rewrite Ha. by split_and!; left. }
    destruct (gamePhase s) eqn:Hp.
    + (* betting *)
      unfold commit, autoPlayEffect. rewrite Ha, Hp. cbn [negb].
      rewrite andThen_apply.
      set (q := setMessage "Auto-play: Dealing new hand..." s).
      assert (Hq : sameGame s q) by apply sameGame_setMessage.
      destruct (Z.lt_ge_cases (bankroll s) (betAmount s)) as [Hlt|Hge].
      * rewrite (dealHand_rejected rnd s Hlt), Ha, Hp. cbn [isPhase orb].
        unfold q. simpl_updates. rewrite Hp.
        split_and!; [by left | | by left].
        right. right. split_and!; try done. by exists rnd.
      * destruct (dealHand_effect rnd s q Hq (or_introl Hp) Hge)
          as (p1 & p2 & q1 & q2 & rest & _ & H).
        cbn zeta in H.
        destruct H as (_ & _ & _ & _ & _ & Hbet & Hauto & Htuple).
        rewrite Hbet, Hauto, Ha.
        split_and!; [|by left|by left].
        do 3 right. left. split; [by left|]. split; [lia|]. split.
        -- destruct (_ =? _), (_ =? _); injection Htuple as -> _ _; auto.
        -- right. split_and!; try done. by exists rnd.
    + (* playerTurn *)
      destruct (autoPlayEffect_playerTurn rnd s Hinv Hp Ha) as (up & _ & Hst).
      cbn [step] in Hst. rewrite Hst.
      destruct (shouldAutoPlayHit _ _ _).
      * destruct (roundInvariant_top_card s Hinv Hp) as (card & rest & Hd).
        destruct (hitPlayer_effect s
                    (setMessage "Auto-play: Hitting..."
                       (setMessage "Auto-play: Player's turn..." s))
                    card rest ltac:(by repeat split) Hp Hd)
          as (_ & _ & _ & _ & _ & Hbet & Hauto & Htuple & _).
        cbn zeta in *. rewrite Hbet, Hauto, Ha.
        split_and!; [|by left|by left].
        destruct (_ <? _); [|destruct (_ =? _)%nat];
          injection Htuple as -> _; [| |by left];
          do 4 right; left; (split_and!; [done | done |]);
          right; (split; [done | by exists rnd]).
      * rewrite (standPlayer_effect s _ Hp). simpl_updates. rewrite Ha.
        split_and!; [|by left|by left].
        do 5 right. left. split_and!; [done | done |].
        right. split; [done | by exists rnd].
    + (* dealerTurn *)
      unfold commit, autoPlayEffect. rewrite Ha, Hp. cbn [negb].
      simpl_updates. rewrite Hp, Ha. by split_and!; left.
    + (* result *)
      unfold commit, autoPlayEffect. rewrite Ha, Hp. cbn [negb].
      simpl_updates. rewrite Ha. split_and!; [|by left|by left].
      do 2 right. left. split_and!; [done | done |].
      right. split; [done | by exists rnd].
    + unfold roundInvariant in Hinv. by rewrite Hp in Hinv.
  - (* RunManualResultEffect *)
    unfold commit, manualResultEffect.
    destruct (autoPlayMode s) eqn:Ha; cbn [negb andb]; unfold skip;
      [by rewrite Ha; split_and!; left|].
    destruct (gamePhase s) eqn:Hp; cbn [isPhase]; unfold skip;
      try (by rewrite ?Hp, ?Ha; split_and!; left).
    simpl_updates. rewrite Ha. split_and!; [|by left|by left].
    do 2 right. left. split_and!; [done | done |]. by left.
Qed.

End Transitions.


(** The settings change only by their controls.  In a reachable state a
    step changes the auto-play flag only if it is a click on the
    auto-play button, which leaves the phase alone, or a run of the
    auto-play effect in the betting phase with a bankroll below the
    wager, which turns auto-play off and stays in betting; and it changes
    the wager only if it is a selection of one of the options in the
    betting phase.  A reset changes neither. *)
Theorem settings_change_only_by_their_controls
    (es : list Event) (e : Event) :
  let s := run es initialState in
  let s' := step e s in
  (autoPlayMode s' = autoPlayMode s
   \/ (e = ClickAutoPlay /\ gamePhase s' = gamePhase s)
   \/ (autoPlayMode s = true /\ autoPlayMode s' = false
       /\ gamePhase s = betting /\ gamePhase s' = betting
       /\ bankroll s < betAmount s
       /\ exists rnd, e = RunAutoPlayEffect rnd))
  /\ (betAmount s' = betAmount s
      \/ (gamePhase s = betting /\ gamePhase s' = betting
          /\ betAmount s' ∈ betOptions /\ e = SelectBet (betAmount s'))).
Proof.
  intros s s'. pose proof (run_round es) as Hinv. fold s in Hinv.
  exact (proj2 (step_changes e s Hinv)).
Qed.

(** ** The render *)

Section Render.

Lemma getSuitSymbol_inj (s s' : Suit) :
  getSuitSymbol s = getSuitSymbol s' -> s = s'.
Proof. by destruct s, s'. Qed.

(** Outside the test of [renderHand], every card is shown face up. *)
Lemma renderHand_shown (phase : Phase) (hand : list Card) (isDealer : bool) :
  (forall index : nat, hidesCard phase isDealer index = false) ->
  renderHand phase hand isDealer = (fun card => renderCard card false) <$> hand.
Proof.
  intros Hshown. unfold renderHand. rewrite <- imap_const.
  apply imap_ext. intros index card _. cbn beta. by rewrite Hshown.
Qed.

End Render.

(** A card shown face up is shown as itself: two cards of the deck's
    making with the same face-up view are the same card, and the view is
    red exactly for hearts and diamonds. *)
Theorem renderCard_identifies_card (card card' : Card) :
  wellFormed card -> wellFormed card' ->
  renderCard card false = renderCard card' false ->
  card = card'
  /\ renderCard card false
     = faceUp (rank card) (getSuitSymbol (suit card))
         (match suit card with hearts | diamonds => true | _ => false end).
Proof.
  intros Hwf Hwf' Heq. split.
  - unfold renderCard in Heq. injection Heq as Hr Hs _.
    apply getSuitSymbol_inj in Hs.
    destruct card as [s r v], card' as [s' r' v'].
    unfold wellFormed in *. cbn in *. by subst.
  - unfold renderCard. by destruct (suit card).
Qed.

Lemma renderCard_identifies_card_witness :
  (wellFormed (makeCard hearts RQ) /\ wellFormed (mkCard hearts RQ 10)
   /\ renderCard (makeCard hearts RQ) false
      = renderCard (mkCard hearts RQ 10) false)
  /\ makeCard hearts RQ = mkCard hearts RQ 10.
Proof.
  assert (Hwf : wellFormed (makeCard hearts RQ)) by reflexivity.
  assert (Hwf' : wellFormed (mkCard hearts RQ 10)) by reflexivity.
  assert (Heq : renderCard (makeCard hearts RQ) false
                = renderCard (mkCard hearts RQ 10) false) by reflexivity.
  split; [by split_and! |].
  exact (proj1 (renderCard_identifies_card _ _ Hwf Hwf' Heq)).
Defined.

(** What the table shows in a reachable state.  The player's cards are
    all face up.  In the player's turn the dealer holds two cards, the
    first shown and the second face down, and the dealer's heading
    shows no total; in every other phase all the dealer's cards are face
    up and the heading shows the dealer's total. *)
Theorem hole_card_hidden_exactly_in_players_turn (es : list Event) :
  let s := run es initialState in
  renderHand (gamePhase s) (playerHand s) false
  = (fun card => renderCard card false) <$> playerHand s
  /\ (gamePhase s = playerTurn ->
      exists up hole,
        dealerHand s = [up; hole]
        /\ renderHand (gamePhase s) (dealerHand s) true
           = [renderCard up false; faceDown]
        /\ dealerHandLabel s = None)
  /\ (gamePhase s <> playerTurn ->
      renderHand (gamePhase s) (dealerHand s) true
      = (fun card => renderCard card false) <$> dealerHand s
      /\ dealerHandLabel s = Some (total (calculateHandValue (dealerHand s)))).
Proof.
  intros s. pose proof (run_round es) as Hinv. fold s in Hinv.
  unfold roundInvariant in Hinv. split_and!.
  - by apply renderHand_shown.
  - intros Hp. rewrite Hp in Hinv. destruct Hinv as (Hlen & _).
    destruct (dealerHand s) as [|up [|hole [|? ?]]] eqn:Hdh;
      try discriminate Hlen.
    exists up, hole. unfold dealerHandLabel. rewrite Hp. by split_and!.
  - intros Hp. unfold dealerHandLabel.
    destruct (gamePhase s) eqn:Hph; try done;
      (split; [|done]); apply renderHand_shown; intros index;
      unfold hidesCard; cbn [isPhase negb]; by rewrite ?andb_false_r.
Qed.

(** ** The result panel *)

Section ResultPanel.









End ResultPanel.

